(** * Super Simple Stocks (jp_morgan.cpp): a shallow embedding and its properties

    The program keeps two process-wide collections, the trade database
    [trade_db] (a [std::vector<trade_op>]) and the GBCE index [gbce] (a
    [std::vector<stock>]), and drives them from a line-oriented prompt.

    Conventions of the embedding:
    - [double] is Rocq's primitive [float] (IEEE 754 binary64), with the
      operators of [PrimFloat]; nothing is idealised to real numbers.
    - [int] and [time_t] are [Z]; the program never relies on wrap-around.
    - [std::string] is [string]; [std::vector] is [list], [push_back]
      appends at the end.
    - [time(NULL)] is an input [now] of each operation: the clock counts
      whole seconds, and one operation is taken to run within one reading.
    - [rand()] results are inputs of [random_trade]; the C library contract
      [0 <= rand()] appears where a property needs it.
    - [pow], [atoi] and [atof] belong to the C library, not to the program:
      they are Section variables. *)

From Stdlib Require Import ZArith List String Ascii Bool Lia.
From Stdlib Require Import Uint63 Floats.
Import ListNotations.

(* Decimal literals such as 0.41 denote the nearest binary64 value, as in C++. *)
#[local] Set Warnings "-inexact-float".

Local Open Scope string_scope.
Local Open Scope Z_scope.

(** ** Constants and scalar conversions *)

Definition FIFTEEN_MINS : Z := 15 * 60.

(** Stock types *)
Definition COMMON_STOCK : Z := 0.
Definition PREF_STOCK : Z := 1.

(** Trading operations *)
Definition BUY_STOCK : Z := 0.
Definition SELL_STOCK : Z := 1.

Definition time_t := Z.

(** The implicit conversion [int -> double], exact for every 32-bit [int]
    (the definition covers all integers of magnitude below 2^63). *)
Definition double_of_int (n : Z) : float :=
  if n <? 0 then PrimFloat.opp (of_uint63 (Uint63.of_Z (- n)))
  else of_uint63 (Uint63.of_Z n).

(** The contextual conversion [double -> bool] of [if(x)]: [x != 0.0]. *)
Definition double_to_bool (x : float) : bool := negb (PrimFloat.eqb x 0%float).

(** The contextual conversion [int -> bool] of [if(n)]: [n != 0]. *)
Definition int_to_bool (n : Z) : bool := negb (n =? 0).

(** ** A trade operation record *)

Module trade_op.

Record t : Type := mk {
  stamp : time_t;
  symbol : string;
  operation : Z;
  quantity : Z;
  price : float
}.

(** The constructor [trade_op(sy, op, qty, pr)], run when the clock reads [now]. *)
Definition new (now : time_t) (sy : string) (op qty : Z) (pr : float) : t :=
  {| stamp := now;
     symbol := sy;
     operation := if op =? BUY_STOCK then BUY_STOCK else SELL_STOCK;
     quantity := qty;
     price := pr |}.

End trade_op.

(** ** An entry of the GBCE index *)

Module stock.

Record t : Type := mk {
  symbol : string;
  type : Z;
  last_dividend : float;
  fixed_dividend : float;
  par_value : float;
  price : float
}.

(** The constructor: the initial price is the par value. *)
Definition new (sy : string) (ty : Z) (ld fd pv : float) : t :=
  {| symbol := sy;
     type := if ty =? PREF_STOCK then ty else COMMON_STOCK;
     last_dividend := ld;
     fixed_dividend := fd;
     par_value := pv;
     price := pv |}.

Definition get_symbol (s : t) : string := symbol s.

Definition get_price (s : t) : float := price s.

Definition with_price (s : t) (p : float) : t :=
  {| symbol := symbol s;
     type := type s;
     last_dividend := last_dividend s;
     fixed_dividend := fixed_dividend s;
     par_value := par_value s;
     price := p |}.

(** Dividend yield: the [switch] on [type], with its [default] branch. *)
Definition get_dividend_yield (s : t) : float :=
  if type s =? COMMON_STOCK then (last_dividend s / price s)%float
  else if type s =? PREF_STOCK then (fixed_dividend s / price s)%float
  else 0%float.

(** Price/Earnings ratio. *)
Definition get_pe_ratio (s : t) : float :=
  if double_to_bool (last_dividend s) then (price s / last_dividend s)%float
  else 0%float.

(** The three locals of [set_price]: [trades], [tq] and [q]. *)
Record sums : Type := mk_sums {
  trades : Z;
  tq : float;
  q : float
}.

Definition sums0 : sums := {| trades := 0; tq := 0%float; q := 0%float |}.

(** One iteration of the [while] loop of [set_price] on the record [op]. *)
Definition scan_step (sy : string) (interval now : time_t)
    (a : sums) (op : trade_op.t) : sums :=
  if String.eqb sy (trade_op.symbol op) then
    if interval >=? now - trade_op.stamp op then
      {| trades := trades a + 1;
         tq := (tq a + double_of_int (trade_op.quantity op) * trade_op.price op)%float;
         q := (q a + double_of_int (trade_op.quantity op))%float |}
    else a
  else a.

(** The whole loop, from [trade_db.begin()] to [trade_db.end()]. *)
Fixpoint scan (sy : string) (interval now : time_t)
    (ops : list trade_op.t) (a : sums) : sums :=
  match ops with
  | [] => a
  | op :: rest => scan sy interval now rest (scan_step sy interval now a op)
  end.

(** [set_price(interval)] on the stock [s], reading the database [db] when
    the clock reads [now]: the value returned and the stock afterwards. *)
Definition set_price (now interval : time_t) (db : list trade_op.t) (s : t)
    : float * t :=
  let a := scan (symbol s) interval now db sums0 in
  let s' := if int_to_bool (trades a) then with_price s (tq a / q a)%float else s in
  (price s', s').

End stock.

(** ** The process-wide state *)

(** [trade_db] is the global rudimentary trading database; [gbce] is the
    member [list] of the global [the_index gbce]. *)
Record world : Type := mk_world {
  trade_db : list trade_op.t;
  gbce : list stock.t
}.

(** What a command prints, line by line, with the values before formatting. *)
Inductive output : Type :=
| out_help
| out_index (idx : float) (table : list stock.t)
| out_done (n : nat)
| out_error_unknown_symbol (sym : string)
| out_error_cannot (cmd sym qty : string)
| out_error_syntax (cmd : string)
| out_list (db : list trade_op.t)
| out_price (sym : string) (p : float)
| out_yield (sym : string) (y : float)
| out_pe (sym : string) (r : float)
| out_error_unknown_command (cmd : string).

Module the_index.

(** The sample table built by the constructor [the_index()]. *)
Definition sample : list stock.t :=
  [ stock.new "TEA" COMMON_STOCK 0.00%float 0%float 1.00%float;
    stock.new "POP" COMMON_STOCK 0.08%float 0%float 1.00%float;
    stock.new "ALE" COMMON_STOCK 0.23%float 0%float 0.60%float;
    stock.new "GIN" PREF_STOCK 0.08%float 2%float 1.00%float;
    stock.new "JOE" COMMON_STOCK 0.13%float 0%float 2.50%float ].

(** The state at startup: an empty database and the sample table. *)
Definition startup : world := {| trade_db := []; gbce := sample |}.

(** [exist(symbol)]: the linear search over [list]. *)
Fixpoint exist_from (symbol : string) (l : list stock.t) : bool :=
  match l with
  | [] => false
  | st :: rest =>
      if String.eqb symbol (stock.get_symbol st) then true
      else exist_from symbol rest
  end.

Definition exist (symbol : string) (w : world) : bool :=
  exist_from symbol (gbce w).

(** [std::string::empty()]. *)
Definition empty (s : string) : bool :=
  match s with EmptyString => true | String _ _ => false end.

(** [trade(symbol, op, num, price)] when the clock reads [now]. *)
Definition trade (now : time_t) (symbol : string) (op num : Z) (price : float)
    (w : world) : bool * world :=
  if empty symbol || (price <? 0)%float || (num <? 0) then (false, w)
  else (true, {| trade_db := trade_db w ++ [trade_op.new now symbol op num price];
                 gbce := gbce w |}).

(** [random_trade(sym)]; [r_op], [r_qty] and [r_pr] are the results of the
    three calls of [rand()] in the arguments of the constructor. *)
Definition random_trade (now : time_t) (r_op r_qty r_pr : Z) (sym : string)
    (w : world) : world :=
  {| trade_db :=
       trade_db w ++
       [trade_op.new now sym
          (if int_to_bool (Z.land r_op 1) then BUY_STOCK else SELL_STOCK)
          (1 + Z.rem r_qty 109)
          (0.41 + double_of_int (Z.rem r_pr 299) / 100.0)%float];
     gbce := gbce w |}.

(** The loop of [get_index]: [tmp] after the entries [l]. *)
Fixpoint product_from (l : list stock.t) (tmp : float) : float :=
  match l with
  | [] => tmp
  | st :: rest =>
      let num := stock.get_price st in
      product_from rest (if double_to_bool num then (tmp * num)%float else tmp)
  end.

(** The loop of [price()]: every entry recalculated over fifteen minutes,
    each followed by its line of output. *)
Fixpoint price_from (now : time_t) (db : list trade_op.t) (l : list stock.t)
    : list stock.t * list output :=
  match l with
  | [] => ([], [])
  | st :: rest =>
      let st' := snd (stock.set_price now FIFTEEN_MINS db st) in
      let '(rest', outs) := price_from now db rest in
      (st' :: rest', out_price (stock.get_symbol st') (stock.get_price st') :: outs)
  end.

Definition price (now : time_t) (w : world) : world * list output :=
  let '(l', outs) := price_from now (trade_db w) (gbce w) in
  ({| trade_db := trade_db w; gbce := l' |}, outs).

Definition dividend_yield (w : world) : list output :=
  map (fun st => out_yield (stock.get_symbol st) (stock.get_dividend_yield st)) (gbce w).

Definition pe_ratio (w : world) : list output :=
  map (fun st => out_pe (stock.get_symbol st) (stock.get_pe_ratio st)) (gbce w).

Definition list_trade (w : world) : list output := [out_list (trade_db w)].

Section Index.

(** [pow] of <math.h>. *)
Variable pow : float -> float -> float.

(** [get_index()]: the geometric mean of the prices. *)
Definition get_index (w : world) : float :=
  let tmp := product_from (gbce w) 1.0%float in
  let num := double_of_int (Z.of_nat (List.length (gbce w))) in
  pow tmp (1.00 / num)%float.

End Index.

End the_index.

(** ** The command dispatcher *)

(** What one command reads from outside the program: the clock, and the
    successive results of [rand()]. *)
Record env : Type := mk_env {
  now : time_t;
  rand : nat -> Z
}.

(** The loop [while (getline(f, s, ' ')) cmd.push_back(s)]: [cur] holds the
    characters the running [getline] has extracted so far. A [getline] that
    meets the end of the line after at least one character yields a field;
    one that extracts nothing fails and ends the loop. *)
Fixpoint split_from (s cur : string) : list string :=
  match s with
  | EmptyString => if the_index.empty cur then [] else [cur]
  | String c rest =>
      if Ascii.eqb c " "%char then cur :: split_from rest EmptyString
      else split_from rest (cur ++ String c EmptyString)
  end.

Definition split (cmdline : string) : list string := split_from cmdline EmptyString.

Section Dispatcher.

(** [pow] of <math.h>, [atoi] and [atof] of <stdlib.h>. *)
Variable pow : float -> float -> float.
Variable atoi : string -> Z.
Variable atof : string -> float.

(** The five calls of [random_trade] of the "trade" command; the [k]-th one
    consumes the results [3k], [3k+1] and [3k+2] of [rand()]. *)
Definition random_trades (e : env) (w : world) : world :=
  let w := the_index.random_trade (now e) (rand e 0) (rand e 1) (rand e 2) "TEA" w in
  let w := the_index.random_trade (now e) (rand e 3) (rand e 4) (rand e 5) "POP" w in
  let w := the_index.random_trade (now e) (rand e 6) (rand e 7) (rand e 8) "ALE" w in
  let w := the_index.random_trade (now e) (rand e 9) (rand e 10) (rand e 11) "GIN" w in
  the_index.random_trade (now e) (rand e 12) (rand e 13) (rand e 14) "JOE" w.

(** [process_command(cmdline)]: the value returned, the state afterwards and
    the lines printed. [!a.compare(b)] is [String.eqb a b]. *)
Definition process_command (e : env) (cmdline : string) (w : world)
    : bool * world * list output :=
  let cmd := split cmdline in
  let cmd0 := nth 0 cmd EmptyString in
  let cmd1 := nth 1 cmd EmptyString in
  let cmd2 := nth 2 cmd EmptyString in
  let cmd3 := nth 3 cmd EmptyString in
  if (0 <? List.length cmd)%nat then
    if String.eqb cmd0 "quit" then (false, w, [])
    else if String.eqb cmd0 "help" then (true, w, [out_help])
    else if String.eqb cmd0 "index" then
      (true, w, [out_index (the_index.get_index pow w) (gbce w)])
    else if String.eqb cmd0 "trade" then
      let w' := random_trades e w in
      (true, w', [out_done (List.length (trade_db w'))])
    else if String.eqb cmd0 "buy" || String.eqb cmd0 "sell" then
      if (3 <? List.length cmd)%nat then
        if negb (the_index.exist cmd2 w) then
          (true, w, [out_error_unknown_symbol cmd2])
        else
          let buy := negb (String.eqb cmd0 "sell") in
          let qty := atoi cmd1 in
          let price := atof cmd3 in
          let '(ok, w') :=
            the_index.trade (now e) cmd2 (if buy then BUY_STOCK else SELL_STOCK) qty price w in
          if ok then (true, w', [out_done (List.length (trade_db w'))])
          else (true, w', [out_error_cannot cmd0 cmd2 cmd1])
      else (true, w, [out_error_syntax cmd0])
    else if String.eqb cmd0 "list" then (true, w, the_index.list_trade w)
    else if String.eqb cmd0 "price" then
      let '(w', outs) := the_index.price (now e) w in (true, w', outs)
    else if String.eqb cmd0 "yield" then (true, w, the_index.dividend_yield w)
    else if String.eqb cmd0 "pe" then (true, w, the_index.pe_ratio w)
    else (true, w, [out_error_unknown_command cmd0])
  else (true, w, []).

(** The loop of [main], [do { getline(std::cin, cmd); } while
    (process_command(cmd));], over the lines read so far, each with what the
    command reads from outside: the state when the loop has stopped or the
    lines are used up. *)
Fixpoint main_loop (input : list (env * string)) (w : world) : world :=
  match input with
  | [] => w
  | (e, cmdline) :: rest =>
      let '(continue, w', _) := process_command e cmdline w in
      if continue then main_loop rest w' else w'
  end.

End Dispatcher.

(** ** Reachable states

    The states the three state-changing operations of [the_index] produce
    from [startup]: an accepted [trade], a [random_trade] (with the results
    of [rand()] non-negative, as the C library promises), and [price]. *)
Inductive step : world -> world -> Prop :=
| step_trade (now : time_t) (symbol : string) (op num : Z) (pr : float) (w w' : world) :
    the_index.trade now symbol op num pr w = (true, w') -> step w w'
| step_random_trade (now : time_t) (r_op r_qty r_pr : Z) (sym : string) (w : world) :
    0 <= r_op -> 0 <= r_qty -> 0 <= r_pr ->
    step w (the_index.random_trade now r_op r_qty r_pr sym w)
| step_price (now : time_t) (w : world) :
    step w (fst (the_index.price now w)).

Inductive reachable : world -> Prop :=
| reachable_startup : reachable the_index.startup
| reachable_step (w w' : world) : reachable w -> step w w' -> reachable w'.

(** ** The specification's vocabulary

    Definitions that follow the words of the specification, to be compared
    with the code above. *)

Module Spec.

(** [trades_for(symbol, window)]: the records matching [symbol] whose age
    (current time - record time) is at most [window], in log order. *)
Definition trades_for (symbol : string) (window now : time_t)
    (db : list trade_op.t) : list trade_op.t :=
  filter (fun op => String.eqb (trade_op.symbol op) symbol
                    && (now - trade_op.stamp op <=? window)) db.

(** Sum of quantity * price over a list of records. *)
Definition sum_quantity_price (l : list trade_op.t) : float :=
  fold_left (fun acc op =>
    (acc + double_of_int (trade_op.quantity op) * trade_op.price op)%float) l 0%float.

(** Sum of quantity over a list of records. *)
Definition sum_quantity (l : list trade_op.t) : float :=
  fold_left (fun acc op => (acc + double_of_int (trade_op.quantity op))%float) l 0%float.

(** The volume-weighted average price of a list of records. *)
Definition volume_weighted_average (l : list trade_op.t) : float :=
  (sum_quantity_price l / sum_quantity l)%float.

(** The prices of the entries that are nonzero. *)
Definition nonzero_prices (l : list stock.t) : list float :=
  filter double_to_bool (map stock.price l).

(** The product of a list of numbers, starting from 1. *)
Definition product (l : list float) : float :=
  fold_left (fun acc x => (acc * x)%float) l 1%float.

(** The [n]-th root as the program takes it: [pow(x, 1.0 / n)]. *)
Definition nth_root (pow : float -> float -> float) (n : Z) (x : float) : float :=
  pow x (1 / double_of_int n)%float.

(** A character of white space ([isspace] in the C locale). *)
Definition is_space (c : ascii) : bool :=
  match nat_of_ascii c with
  | 9%nat | 10%nat | 11%nat | 12%nat | 13%nat | 32%nat => true
  | _ => false
  end.

Fixpoint skip_spaces (s : string) : string :=
  match s with
  | EmptyString => EmptyString
  | String c rest => if is_space c then skip_spaces rest else s
  end.

Fixpoint take_word (s : string) : string :=
  match s with
  | EmptyString => EmptyString
  | String c rest => if is_space c then EmptyString else String c (take_word rest)
  end.

(** The first whitespace-separated token of a line, if it has one. *)
Definition first_token (line : string) : option string :=
  match skip_spaces line with
  | EmptyString => None
  | s => Some (take_word s)
  end.

(** The text of a line before its first space character. *)
Fixpoint first_field (line : string) : string :=
  match line with
  | EmptyString => EmptyString
  | String c rest => if Ascii.eqb c " "%char then EmptyString else String c (first_field rest)
  end.

End Spec.

(** ** Method calls on the entries of the global index *)

(** [l] with its [i]-th element replaced by [x]. *)
Fixpoint list_set {A : Type} (i : nat) (x : A) (l : list A) : list A :=
  match l, i with
  | [], _ => []
  | _ :: rest, O => x :: rest
  | y :: rest, S j => y :: list_set j x rest
  end.

(** The call [gbce.list[i].set_price(interval)] as a transformer of the
    process-wide state; [None] when there is no [i]-th entry. *)
Definition call_set_price (i : nat) (now interval : time_t) (w : world)
    : option (float * world) :=
  match nth_error (gbce w) i with
  | None => None
  | Some st =>
      let '(p, st') := stock.set_price now interval (trade_db w) st in
      Some (p, {| trade_db := trade_db w; gbce := list_set i st' (gbce w) |})
  end.

(** ** Stand-ins for the C library

    The properties below hold for every [pow], [atoi] and [atof]. To run the
    embedding on concrete inputs, here are plain versions of the three for
    the arguments used: exponents [1/n], and short decimal numerals. *)

Module Libc.

Fixpoint power (r : float) (k : nat) : float :=
  match k with
  | O => 1%float
  | S k' => (r * power r k')%float
  end.

(** Newton's iteration for the positive [n]-th root of [x], from [r]. *)
Fixpoint newton_root (fuel n : nat) (x r : float) : float :=
  match fuel with
  | O => r
  | S fuel' =>
      newton_root fuel' n x
        ((double_of_int (Z.of_nat (n - 1)) * r + x / power r (n - 1))
         / double_of_int (Z.of_nat n))%float
  end.

(** [pow(x, y)] for [y = 1.0 / n] with [1 <= n <= 64]. *)
Definition pow (x y : float) : float :=
  match find (fun n => PrimFloat.eqb (1 / double_of_int (Z.of_nat n)) y) (seq 1 64) with
  | Some n => newton_root 200 n x x
  | None => nan
  end.

Definition digit (c : ascii) : option Z :=
  let n := Z.of_nat (nat_of_ascii c) in
  if (48 <=? n) && (n <=? 57) then Some (n - 48) else None.

(** The digits at the head of [s], read in base ten after [acc]; the
    number of digits read; and the rest of [s]. *)
Fixpoint digits (s : string) (acc : Z) (count : nat) : Z * nat * string :=
  match s with
  | EmptyString => (acc, count, s)
  | String c rest =>
      match digit c with
      | Some d => digits rest (10 * acc + d) (S count)
      | None => (acc, count, s)
      end
  end.

(** [atoi]: leading white space, an optional sign, decimal digits. *)
Definition atoi (s : string) : Z :=
  match Spec.skip_spaces s with
  | String "-"%char rest => - fst (fst (digits rest 0 O))
  | String "+"%char rest => fst (fst (digits rest 0 O))
  | rest => fst (fst (digits rest 0 O))
  end.

(** [atof] on an unsigned numeral [ddd] or [ddd.ddd] with an optional sign:
    the digits as an integer, divided by the power of ten of the fraction. *)
Definition atof_unsigned (s : string) : float :=
  let '(whole, _, rest) := digits s 0 O in
  match rest with
  | String "."%char frac =>
      let '(all, k, _) := digits frac whole O in
      (double_of_int all / power 10 k)%float
  | _ => double_of_int whole
  end.

Definition atof (s : string) : float :=
  match Spec.skip_spaces s with
  | String "-"%char rest => (- atof_unsigned rest)%float
  | String "+"%char rest => atof_unsigned rest
  | rest => atof_unsigned rest
  end.

End Libc.

(** ** Signs of doubles

    Two readings of "not negative" on the IEEE 754 value of a double. *)

(** NaN, or the sign bit is clear: +0, a positive number or +infinity. *)
Definition sf_nonneg (x : spec_float) : bool :=
  match x with
  | S754_nan => true
  | S754_zero s | S754_infinity s | S754_finite s _ _ => negb s
  end.

(** The comparison [x < 0] is false: as above, or -0. *)
Definition sf_not_below_zero (x : spec_float) : bool :=
  match x with
  | S754_nan | S754_zero _ => true
  | S754_infinity s | S754_finite s _ _ => negb s
  end.

Definition nonneg (x : float) : Prop := sf_nonneg (Prim2SF x) = true.

Definition not_below_zero (x : float) : Prop := sf_not_below_zero (Prim2SF x) = true.

(** The fields of a stock entry that no operation writes. *)
Definition fixed_fields (s : stock.t) : string * Z * float * float * float :=
  (stock.symbol s, stock.type s, stock.last_dividend s, stock.fixed_dividend s,
   stock.par_value s).

(** What every record of a reachable trade log satisfies. *)
Definition record_ok (r : trade_op.t) : Prop :=
  0 <= trade_op.quantity r /\ not_below_zero (trade_op.price r).

(** The invariant: the fixed fields are those of the sample table, every
    price has its sign bit clear or is NaN, every record is well formed, and
    while the log is empty the table is the sample table itself. *)
Definition invariant (w : world) : Prop :=
  map fixed_fields (gbce w) = map fixed_fields the_index.sample /\
  Forall (fun s => nonneg (stock.price s)) (gbce w) /\
  Forall record_ok (trade_db w) /\
  (trade_db w = [] -> gbce w = the_index.sample).

(** Two short runs of the program from startup: "buy 5 TEA 0" then "price",
    and "buy 0 TEA 1" alone, both with the clock at 0. *)
Definition after_buy_at_zero_price : world :=
  fst (the_index.price 0
         (snd (the_index.trade 0 "TEA" BUY_STOCK 5 0%float the_index.startup))).

Definition after_buy_of_zero_shares : world :=
  snd (the_index.trade 0 "TEA" BUY_STOCK 0 1%float the_index.startup).

(** ** Vocabulary for the further properties *)

(** The symbols of the sample table, in the order of the table. *)
Definition sample_symbols : list string := ["TEA"; "POP"; "ALE"; "GIN"; "JOE"].

(** [x], or 1 when [x] is zero: the replacement the comment of [get_index]
    speaks of ("changing zeros to ones before each multiplication"). *)
Definition one_for_zero (x : float) : float :=
  if double_to_bool x then x else 1%float.

(** A line without its last character when that character is a space. *)
Fixpoint chop_space (s : string) : string :=
  match s with
  | EmptyString => EmptyString
  | String c rest =>
      match rest with
      | EmptyString => if Ascii.eqb c " "%char then EmptyString else s
      | String _ _ => String c (chop_space rest)
      end
  end.

(** No character of [s] is a space. *)
Fixpoint no_space (s : string) : bool :=
  match s with
  | EmptyString => true
  | String c rest => negb (Ascii.eqb c " "%char) && no_space rest
  end.

(** A record as the dispatcher writes them into the log of the state [w]:
    its symbol is listed in the index, its side is one of the two sides,
    its quantity and its price are not negative. *)
Definition record_listed (w : world) (r : trade_op.t) : Prop :=
  the_index.exist (trade_op.symbol r) w = true /\
  (trade_op.operation r = BUY_STOCK \/ trade_op.operation r = SELL_STOCK) /\
  0 <= trade_op.quantity r /\
  (trade_op.price r <? 0)%float = false.

(** The symbol of a record is one of the sample table, its side one of
    the two sides. *)
Definition record_from_index (r : trade_op.t) : Prop :=
  In (trade_op.symbol r) sample_symbols /\
  (trade_op.operation r = BUY_STOCK \/ trade_op.operation r = SELL_STOCK).

(** The price [random_trade] draws from the result [r] of [rand()]. *)
Definition random_price (r : Z) : float :=
  (0.41 + double_of_int (Z.rem r 299) / 100.0)%float.

(** * Properties *)

(** ** The scan of [set_price] against the specification's sums *)

Lemma scan_step_match sy interval now a op :
  stock.scan_step sy interval now a op =
  if String.eqb (trade_op.symbol op) sy && (now - trade_op.stamp op <=? interval)
  then {| stock.trades := stock.trades a + 1;
          stock.tq := (stock.tq a + double_of_int (trade_op.quantity op) * trade_op.price op)%float;
          stock.q := (stock.q a + double_of_int (trade_op.quantity op))%float |}
  else a.
Proof.
  unfold stock.scan_step.
  rewrite (String.eqb_sym sy), Z.geb_leb.
  destruct (String.eqb _ _); simpl; reflexivity.
Qed.

Lemma scan_fold sy interval now db : forall a,
  stock.scan sy interval now db a =
  let m := Spec.trades_for sy interval now db in
  {| stock.trades := stock.trades a + Z.of_nat (List.length m);
     stock.tq := fold_left (fun acc op =>
        (acc + double_of_int (trade_op.quantity op) * trade_op.price op)%float) m (stock.tq a);
     stock.q := fold_left (fun acc op =>
        (acc + double_of_int (trade_op.quantity op))%float) m (stock.q a) |}.
Proof.
  induction db as [|op db IH]; intros a; simpl.
  - rewrite Z.add_0_r. destruct a; reflexivity.
  - rewrite IH, scan_step_match.
    destruct (String.eqb _ _ && _); simpl.
    + f_equal. lia.
    + reflexivity.
Qed.

Lemma scan_trades_zero sy interval now db :
  stock.trades (stock.scan sy interval now db stock.sums0) = 0 <->
  Spec.trades_for sy interval now db = [].
Proof.
  rewrite scan_fold. simpl.
  destruct (Spec.trades_for sy interval now db); simpl; split; intros H;
    try reflexivity; try discriminate; lia.
Qed.

Lemma set_price_matching now interval db s :
  Spec.trades_for (stock.symbol s) interval now db <> [] ->
  stock.set_price now interval db s =
  (Spec.volume_weighted_average (Spec.trades_for (stock.symbol s) interval now db),
   stock.with_price s
     (Spec.volume_weighted_average (Spec.trades_for (stock.symbol s) interval now db))).
Proof.
  intros Hm. unfold stock.set_price.
  assert (Ht : int_to_bool
            (stock.trades (stock.scan (stock.symbol s) interval now db stock.sums0)) = true).
  { unfold int_to_bool. apply negb_true_iff, Z.eqb_neq.
    intros H0. apply scan_trades_zero in H0. contradiction. }
  cbv zeta. rewrite Ht. rewrite scan_fold. reflexivity.
Qed.

Lemma set_price_no_match now interval db s :
  Spec.trades_for (stock.symbol s) interval now db = [] ->
  stock.set_price now interval db s = (stock.price s, s).
Proof.
  intros Hm. unfold stock.set_price.
  apply scan_trades_zero in Hm. cbv zeta. rewrite Hm. reflexivity.
Qed.

Lemma list_set_same {A : Type} (l : list A) : forall i x,
  nth_error l i = Some x -> list_set i x l = l.
Proof.
  induction l as [|y l IH]; intros [|i] x H; simpl in *; try discriminate.
  - congruence.
  - rewrite IH; auto.
Qed.

(** ** C1: the recalculated price is the volume-weighted average *)

(** C1. If at least one record of the trade log matches the entry's symbol
    with age (current time - record time) at most the window, [set_price]
    sets the entry's price to (sum of quantity * price over those records) /
    (sum of quantity over them), changes no other field, and returns that
    price. In particular, when the matching records are (quantity 10, price
    2.0) and (quantity 20, price 3.0), in either order, the price returned is
    (10*2.0 + 20*3.0) / (10 + 20). *)
Theorem set_price_volume_weighted_average :
  forall (now interval : time_t) (db : list trade_op.t) (s : stock.t),
    let m := Spec.trades_for (stock.symbol s) interval now db in
    m <> [] ->
    (fst (stock.set_price now interval db s) = Spec.volume_weighted_average m /\
     snd (stock.set_price now interval db s) =
       stock.with_price s (Spec.volume_weighted_average m) /\
     stock.price (snd (stock.set_price now interval db s)) =
       fst (stock.set_price now interval db s)) /\
    (forall r1 r2 : trade_op.t,
       trade_op.quantity r1 = 10 -> trade_op.price r1 = 2.0%float ->
       trade_op.quantity r2 = 20 -> trade_op.price r2 = 3.0%float ->
       m = [r1; r2] \/ m = [r2; r1] ->
       fst (stock.set_price now interval db s) =
         ((double_of_int 10 * 2.0 + double_of_int 20 * 3.0)
          / (double_of_int 10 + double_of_int 20))%float).
Proof.
  intros now interval db s m Hm. subst m.
  rewrite (set_price_matching _ _ _ _ Hm). simpl fst; simpl snd.
  split; [repeat split|].
  intros r1 r2 Hq1 Hp1 Hq2 Hp2 Hor.
  unfold Spec.volume_weighted_average, Spec.sum_quantity_price, Spec.sum_quantity.
  destruct Hor as [-> | ->]; simpl; rewrite Hq1, Hp1, Hq2, Hp2; vm_compute; reflexivity.
Qed.

Lemma set_price_volume_weighted_average_witness :
  let s := stock.new "ALE" COMMON_STOCK 0.23%float 0%float 0.60%float in
  let db := [trade_op.new 100 "ALE" BUY_STOCK 10 2.0%float;
             trade_op.new 110 "TEA" BUY_STOCK 7 1.5%float;
             trade_op.new 120 "ALE" SELL_STOCK 20 3.0%float] in
  fst (stock.set_price 130 FIFTEEN_MINS db s) =
    ((double_of_int 10 * 2.0 + double_of_int 20 * 3.0)
     / (double_of_int 10 + double_of_int 20))%float.
Proof.
  intros s db.
  refine (proj2 (set_price_volume_weighted_average 130 FIFTEEN_MINS db s _)
            (trade_op.new 100 "ALE" BUY_STOCK 10 2.0%float)
            (trade_op.new 120 "ALE" SELL_STOCK 20 3.0%float) _ _ _ _ _).
  - vm_compute. discriminate.
  - reflexivity.
  - reflexivity.
  - reflexivity.
  - reflexivity.
  - left. vm_compute. reflexivity.
Defined.

(** ** C2: no matching trade, nothing changes *)

(** C2. If no record of the trade log matches the entry's symbol within the
    window, the call of [set_price] on that entry of the index returns the
    entry's price as it was and leaves the whole state as it was: the
    entry's price, every other field of every stock, and the trade log. *)
Theorem set_price_without_trades_unchanged :
  forall (i : nat) (now interval : time_t) (w : world) (s : stock.t),
    nth_error (gbce w) i = Some s ->
    Spec.trades_for (stock.symbol s) interval now (trade_db w) = [] ->
    stock.set_price now interval (trade_db w) s = (stock.price s, s) /\
    call_set_price i now interval w = Some (stock.price s, w).
Proof.
  intros i now interval w s Hi Hm.
  pose proof (set_price_no_match now interval (trade_db w) s Hm) as Hs.
  split; [exact Hs|].
  unfold call_set_price. rewrite Hi, Hs.
  rewrite (list_set_same _ _ _ Hi). destruct w; reflexivity.
Qed.

Lemma set_price_without_trades_unchanged_witness :
  let w := {| trade_db := [trade_op.new 100 "TEA" BUY_STOCK 7 1.5%float;
                           trade_op.new 0 "ALE" BUY_STOCK 5 3.0%float];
              gbce := the_index.sample |} in
  call_set_price 2 1000 FIFTEEN_MINS w = Some (0.60%float, w).
Proof.
  intros w.
  refine (proj2 (set_price_without_trades_unchanged 2 1000 FIFTEEN_MINS w
                   (stock.new "ALE" COMMON_STOCK 0.23%float 0%float 0.60%float) _ _)).
  - reflexivity.
  - vm_compute. reflexivity.
Defined.

(** ** C5 and C6: the two ratios *)

(** C5. For every stock entry, [get_dividend_yield] returns last_dividend /
    price when the class is COMMON, fixed_dividend / price when it is
    PREFERRED, and 0 for any other class. *)
Theorem dividend_yield_by_class :
  forall s : stock.t,
    (stock.type s = COMMON_STOCK ->
       stock.get_dividend_yield s = (stock.last_dividend s / stock.price s)%float) /\
    (stock.type s = PREF_STOCK ->
       stock.get_dividend_yield s = (stock.fixed_dividend s / stock.price s)%float) /\
    (stock.type s <> COMMON_STOCK -> stock.type s <> PREF_STOCK ->
       stock.get_dividend_yield s = 0%float).
Proof.
  intros s. unfold stock.get_dividend_yield. repeat split.
  - intros ->. reflexivity.
  - intros ->. reflexivity.
  - intros Hc Hp.
    apply Z.eqb_neq in Hc. apply Z.eqb_neq in Hp. rewrite Hc, Hp. reflexivity.
Qed.

Lemma dividend_yield_by_class_witness :
  stock.get_dividend_yield (stock.mk "POP" COMMON_STOCK 0.08 0 1.00 2.00)
    = (0.08 / 2.00)%float /\
  stock.get_dividend_yield (stock.mk "GIN" PREF_STOCK 0.08 2 1.00 4.00)
    = (2 / 4.00)%float /\
  stock.get_dividend_yield (stock.mk "XXX" 7 0.08 2 1.00 4.00) = 0%float.
Proof.
  split; [|split].
  - apply (proj1 (dividend_yield_by_class
                    (stock.mk "POP" COMMON_STOCK 0.08 0 1.00 2.00))). reflexivity.
  - apply (proj1 (proj2 (dividend_yield_by_class
                    (stock.mk "GIN" PREF_STOCK 0.08 2 1.00 4.00)))). reflexivity.
  - apply (proj2 (proj2 (dividend_yield_by_class
                    (stock.mk "XXX" 7 0.08 2 1.00 4.00)))); discriminate.
Defined.

(** C6. For every stock entry, [get_pe_ratio] returns price / last_dividend
    when last_dividend differs from 0 (as [double]s: the comparison
    [last_dividend == 0.0] is false), and 0 when last_dividend equals 0. *)
Theorem pe_ratio_guarded :
  forall s : stock.t,
    (PrimFloat.eqb (stock.last_dividend s) 0 = false ->
       stock.get_pe_ratio s = (stock.price s / stock.last_dividend s)%float) /\
    (PrimFloat.eqb (stock.last_dividend s) 0 = true ->
       stock.get_pe_ratio s = 0%float).
Proof.
  intros s. unfold stock.get_pe_ratio, double_to_bool.
  split; intros ->; reflexivity.
Qed.

Lemma pe_ratio_guarded_witness :
  stock.get_pe_ratio (stock.new "POP" COMMON_STOCK 0.08 0 1.00) = (1.00 / 0.08)%float /\
  stock.get_pe_ratio (stock.new "TEA" COMMON_STOCK 0.00 0 1.00) = 0%float.
Proof.
  split.
  - apply (proj1 (pe_ratio_guarded (stock.new "POP" COMMON_STOCK 0.08 0 1.00))).
    reflexivity.
  - apply (proj2 (pe_ratio_guarded (stock.new "TEA" COMMON_STOCK 0.00 0 1.00))).
    reflexivity.
Defined.

(** ** C4: what [trade] rejects and what it appends *)

Lemma empty_true_iff (s : string) : the_index.empty s = true <-> s = EmptyString.
Proof. destruct s; simpl; split; intros H; congruence. Qed.

Lemma trade_rejects now symbol op num pr w :
  fst (the_index.trade now symbol op num pr w) = false <->
  (symbol = EmptyString \/ num < 0 \/ (pr <? 0)%float = true).
Proof.
  unfold the_index.trade.
  destruct (the_index.empty symbol) eqn:He; simpl.
  - apply empty_true_iff in He. tauto.
  - assert (symbol <> EmptyString).
    { intros Hs. apply empty_true_iff in Hs. congruence. }
    destruct (pr <? 0)%float; simpl; [tauto|].
    destruct (Z.ltb_spec num 0); simpl; split; intros Hx; try lia; try discriminate;
      try tauto.
    destruct Hx as [|[|]]; try contradiction; try lia; discriminate.
Qed.

(** C4. [trade(s, side, q, p)] fails if and only if [s] is empty, [q < 0] or
    [p < 0]; when it fails the state, so the trade log, is unchanged; when
    it succeeds the index is unchanged and exactly one record is appended at
    the end of the trade log, carrying the current time, [s], the side, [q]
    and [p]. The side recorded is BUY for BUY and SELL for anything else, so
    it is the given side for both sides there are. *)
Theorem trade_validates_and_appends :
  forall (now : time_t) (s : string) (side q : Z) (p : float) (w : world),
    (fst (the_index.trade now s side q p w) = false <->
       (s = EmptyString \/ q < 0 \/ (p <? 0)%float = true)) /\
    (fst (the_index.trade now s side q p w) = false ->
       snd (the_index.trade now s side q p w) = w) /\
    (fst (the_index.trade now s side q p w) = true ->
       trade_db (snd (the_index.trade now s side q p w)) =
         (trade_db w ++
          [trade_op.mk now s (if side =? BUY_STOCK then BUY_STOCK else SELL_STOCK) q p])%list /\
       gbce (snd (the_index.trade now s side q p w)) = gbce w /\
       (side = BUY_STOCK \/ side = SELL_STOCK ->
          trade_db (snd (the_index.trade now s side q p w)) =
            (trade_db w ++ [trade_op.mk now s side q p])%list)).
Proof.
  intros now s side q p w.
  split; [apply trade_rejects|].
  unfold the_index.trade.
  destruct (the_index.empty s || (p <? 0)%float || (q <? 0)); simpl.
  - split; [reflexivity | discriminate].
  - split; [discriminate|]. intros _. repeat split.
    intros [-> | ->]; reflexivity.
Qed.

Lemma trade_validates_and_appends_witness :
  snd (the_index.trade 5 "ALE" BUY_STOCK (-1) 1.0%float the_index.startup)
    = the_index.startup /\
  trade_db (snd (the_index.trade 5 "ALE" BUY_STOCK 10 5.0%float the_index.startup))
    = [trade_op.mk 5 "ALE" BUY_STOCK 10 5.0%float].
Proof.
  split.
  - apply (proj1 (proj2 (trade_validates_and_appends 5 "ALE" BUY_STOCK (-1) 1.0%float
                           the_index.startup))).
    reflexivity.
  - apply (proj2 (proj2 (trade_validates_and_appends 5 "ALE" BUY_STOCK 10 5.0%float
                           the_index.startup))).
    + reflexivity.
    + left. reflexivity.
Defined.

(** ** C3: the geometric mean index *)

Lemma product_from_fold (l : list stock.t) : forall tmp,
  the_index.product_from l tmp =
  fold_left (fun acc x => (acc * x)%float) (Spec.nonzero_prices l) tmp.
Proof.
  unfold Spec.nonzero_prices.
  induction l as [|st l IH]; intros tmp; simpl; [reflexivity|].
  rewrite IH. unfold stock.get_price.
  destruct (double_to_bool (stock.price st)); reflexivity.
Qed.

Section GeometricMean.

Variable pow : float -> float -> float.

Lemma get_index_root (w : world) :
  the_index.get_index pow w =
  Spec.nth_root pow (Z.of_nat (List.length (gbce w)))
    (Spec.product (Spec.nonzero_prices (gbce w))).
Proof.
  unfold the_index.get_index, Spec.nth_root, Spec.product.
  rewrite product_from_fold. reflexivity.
Qed.

(** C3. For every state of the five-entry index, [get_index] returns the
    N-th root, N = 5 counting the zero-priced entries too, of the product of
    the prices of exactly the entries whose price is nonzero. The root is
    taken as [pow(product, 1.0 / 5)]. In particular with prices
    [1, 2, 4, 8, 16] it returns [pow(1024, 1.0 / 5)], the fifth root of
    1*2*4*8*16, which is 4.0 as soon as [pow] is exact there. *)
Theorem get_index_geometric_mean :
  forall w : world,
    List.length (gbce w) = 5%nat ->
    the_index.get_index pow w =
      Spec.nth_root pow 5 (Spec.product (Spec.nonzero_prices (gbce w))) /\
    (map stock.price (gbce w) = [1; 2; 4; 8; 16]%float ->
       Spec.product (Spec.nonzero_prices (gbce w)) = (1 * 2 * 4 * 8 * 16)%float /\
       the_index.get_index pow w = pow 1024%float (1 / 5)%float /\
       (pow 1024%float (1 / 5)%float = 4%float ->
          the_index.get_index pow w = 4%float)).
Proof.
  intros w Hlen. rewrite get_index_root, Hlen. split; [reflexivity|].
  intros Hp. unfold Spec.nonzero_prices. rewrite Hp.
  split; [vm_compute; reflexivity|].
  assert (He : Spec.nth_root pow (Z.of_nat 5)
                 (Spec.product (filter double_to_bool [1; 2; 4; 8; 16]%float))
               = pow 1024%float (1 / 5)%float).
  { unfold Spec.nth_root.
    replace (Spec.product (filter double_to_bool [1; 2; 4; 8; 16]%float))
      with 1024%float by (vm_compute; reflexivity).
    replace (1 / double_of_int (Z.of_nat 5))%float with (1 / 5)%float
      by (vm_compute; reflexivity).
    reflexivity. }
  rewrite He. split; [reflexivity|]. intros H4. exact H4.
Qed.

End GeometricMean.

Lemma get_index_geometric_mean_witness :
  let w := {| trade_db := [];
              gbce := [stock.new "TEA" COMMON_STOCK 0.00 0 1;
                       stock.new "POP" COMMON_STOCK 0.08 0 2;
                       stock.new "ALE" COMMON_STOCK 0.23 0 4;
                       stock.new "GIN" PREF_STOCK 0.08 2 8;
                       stock.new "JOE" COMMON_STOCK 0.13 0 16] |} in
  the_index.get_index Libc.pow w = 4%float.
Proof.
  intros w.
  refine (proj2 (proj2 (proj2 (get_index_geometric_mean Libc.pow w _) _)) _).
  - reflexivity.
  - reflexivity.
  - vm_compute. reflexivity.
Defined.

(** ** Signs through the arithmetic of doubles *)

Section Signs.

Variables prec emax : Z.

Lemma binary_round_aux_sign (m e : Z) (l : location) :
  sf_nonneg (binary_round_aux prec emax false m e l) = true.
Proof.
  unfold binary_round_aux.
  destruct (shr_fexp prec emax m e l) as [mrs e'].
  destruct (shr_fexp prec emax _ e' loc_Exact) as [mrs' e''].
  destruct (shr_m mrs'); try reflexivity.
  destruct (e'' <=? emax - prec); reflexivity.
Qed.

Lemma binary_round_sign (m : positive) (e : Z) :
  sf_nonneg (binary_round prec emax false m e) = true.
Proof.
  unfold binary_round.
  destruct (shl_align m e _) as [mz ez]. apply binary_round_aux_sign.
Qed.

Lemma binary_normalize_sign (m e : Z) :
  0 <= m -> sf_nonneg (binary_normalize prec emax m e false) = true.
Proof.
  intros Hm. destruct m as [|p|p]; simpl; try reflexivity.
  - apply binary_round_sign.
  - lia.
Qed.

Lemma SFmul_sign (x y : spec_float) :
  sf_nonneg x = true -> sf_not_below_zero y = true ->
  sf_not_below_zero (SFmul prec emax x y) = true.
Proof.
  destruct x as [sx|sx| |sx mx ex], y as [sy|sy| |sy my ey]; simpl;
    intros Hx Hy; try reflexivity; try discriminate;
    apply negb_true_iff in Hx; subst sx;
    try (apply negb_true_iff in Hy; subst sy); simpl; try reflexivity.
  pose proof (binary_round_aux_sign (Z.pos (mx * my)) (ex + ey) loc_Exact) as H.
  destruct (binary_round_aux prec emax false _ _ _) as [s|s| |s m e]; simpl in *;
    try reflexivity; assumption.
Qed.

Lemma SFadd_sign (x y : spec_float) :
  sf_nonneg x = true -> sf_not_below_zero y = true ->
  sf_nonneg (SFadd prec emax x y) = true.
Proof.
  destruct x as [sx|sx| |sx mx ex], y as [sy|sy| |sy my ey]; simpl;
    intros Hx Hy; try reflexivity; try discriminate;
    apply negb_true_iff in Hx; subst sx;
    try (apply negb_true_iff in Hy; subst sy); simpl; try reflexivity.
  - destruct sy; reflexivity.
  - apply binary_round_sign.
Qed.

Lemma SFdiv_sign (x y : spec_float) :
  sf_nonneg x = true -> sf_nonneg y = true ->
  sf_nonneg (SFdiv prec emax x y) = true.
Proof.
  destruct x as [sx|sx| |sx mx ex], y as [sy|sy| |sy my ey]; simpl;
    intros Hx Hy; try reflexivity; try discriminate;
    apply negb_true_iff in Hx; subst sx;
    apply negb_true_iff in Hy; subst sy; simpl; try reflexivity.
  destruct (SFdiv_core_binary prec emax (Z.pos mx) ex (Z.pos my) ey) as [[mz ez] lz].
  apply binary_round_aux_sign.
Qed.

End Signs.

Lemma sf_nonneg_not_below_zero (x : spec_float) :
  sf_nonneg x = true -> sf_not_below_zero x = true.
Proof. destruct x as [s|s| |s m e]; simpl; auto. Qed.

Lemma nonneg_not_below_zero (x : float) : nonneg x -> not_below_zero x.
Proof. apply sf_nonneg_not_below_zero. Qed.

Lemma not_below_zero_ltb (x : float) : not_below_zero x <-> (x <? 0)%float = false.
Proof.
  unfold not_below_zero. rewrite ltb_spec.
  replace (Prim2SF 0) with (S754_zero false) by reflexivity.
  destruct (Prim2SF x) as [s|s| |s m e]; simpl; unfold SFltb; simpl;
    try destruct s; simpl; split; intros H; try reflexivity; try discriminate.
Qed.

Lemma mul_sign (x y : float) : nonneg x -> not_below_zero y -> not_below_zero (x * y).
Proof. unfold nonneg, not_below_zero. rewrite mul_spec. apply SFmul_sign. Qed.

Lemma add_sign (x y : float) : nonneg x -> not_below_zero y -> nonneg (x + y).
Proof. unfold nonneg, not_below_zero. rewrite add_spec. apply SFadd_sign. Qed.

Lemma div_sign (x y : float) : nonneg x -> nonneg y -> nonneg (x / y).
Proof. unfold nonneg. rewrite div_spec. apply SFdiv_sign. Qed.

Lemma double_of_int_sign (n : Z) : 0 <= n -> nonneg (double_of_int n).
Proof.
  intros Hn. unfold double_of_int.
  destruct (Z.ltb_spec n 0); [lia|].
  unfold nonneg. rewrite of_uint63_spec.
  apply binary_normalize_sign. apply Uint63.to_Z_bounded.
Qed.

Create HintDb sign.

#[global] Hint Resolve add_sign mul_sign div_sign double_of_int_sign
  nonneg_not_below_zero : sign.

(** ** Invariants of the reachable states *)

Lemma scan_step_sign sy interval now a r :
  record_ok r -> nonneg (stock.tq a) -> nonneg (stock.q a) ->
  nonneg (stock.tq (stock.scan_step sy interval now a r)) /\
  nonneg (stock.q (stock.scan_step sy interval now a r)).
Proof.
  intros [Hq Hp] Htq Hsq. unfold stock.scan_step.
  destruct (String.eqb _ _); [|auto].
  destruct (interval >=? _); [|auto]. simpl. split; auto with sign.
Qed.

Lemma scan_sign sy interval now db : forall a,
  Forall record_ok db -> nonneg (stock.tq a) -> nonneg (stock.q a) ->
  nonneg (stock.tq (stock.scan sy interval now db a)) /\
  nonneg (stock.q (stock.scan sy interval now db a)).
Proof.
  induction db as [|r db IH]; intros a Hdb Htq Hq; simpl; [auto|].
  inversion Hdb as [|? ? Hr Hrest]; subst.
  destruct (scan_step_sign sy interval now a r Hr Htq Hq) as [H1 H2].
  apply IH; assumption.
Qed.

Lemma set_price_fixed_fields now interval db s :
  fixed_fields (snd (stock.set_price now interval db s)) = fixed_fields s.
Proof.
  unfold stock.set_price. cbv zeta. simpl snd.
  destruct (int_to_bool _); reflexivity.
Qed.

Lemma set_price_sign now interval db s :
  Forall record_ok db -> nonneg (stock.price s) ->
  nonneg (stock.price (snd (stock.set_price now interval db s))).
Proof.
  intros Hdb Hs. unfold stock.set_price. cbv zeta. simpl snd.
  destruct (int_to_bool _); [|assumption]. simpl.
  destruct (scan_sign (stock.symbol s) interval now db stock.sums0 Hdb) as [H1 H2];
    try reflexivity.
  auto with sign.
Qed.

Lemma price_from_map now db l :
  fst (the_index.price_from now db l) =
  map (fun st => snd (stock.set_price now FIFTEEN_MINS db st)) l.
Proof.
  induction l as [|st l IH]; simpl; [reflexivity|].
  destruct (the_index.price_from now db l) as [rest outs]. simpl in *.
  rewrite IH. reflexivity.
Qed.

Lemma price_state now w :
  fst (the_index.price now w) =
  {| trade_db := trade_db w;
     gbce := map (fun st => snd (stock.set_price now FIFTEEN_MINS (trade_db w) st)) (gbce w) |}.
Proof.
  unfold the_index.price. rewrite <- price_from_map.
  destruct (the_index.price_from now (trade_db w) (gbce w)); reflexivity.
Qed.

Lemma trade_accepted now symbol op num pr w w' :
  the_index.trade now symbol op num pr w = (true, w') ->
  w' = {| trade_db := (trade_db w ++ [trade_op.new now symbol op num pr])%list;
          gbce := gbce w |} /\
  symbol <> EmptyString /\ 0 <= num /\ (pr <? 0)%float = false.
Proof.
  unfold the_index.trade.
  destruct (the_index.empty symbol) eqn:He; simpl; [discriminate|].
  destruct (pr <? 0)%float eqn:Hp; simpl; [discriminate|].
  destruct (Z.ltb_spec num 0); [discriminate|].
  intros Heq. injection Heq as <-. repeat split; try assumption.
  intros ->. discriminate.
Qed.

Lemma random_price_sign (r : Z) :
  0 <= r -> nonneg (0.41 + double_of_int (Z.rem r 299) / 100.0)%float.
Proof.
  intros Hr. apply add_sign; [reflexivity|].
  apply nonneg_not_below_zero, div_sign; [|reflexivity].
  apply double_of_int_sign, Z.rem_nonneg; lia.
Qed.

Lemma invariant_startup : invariant the_index.startup.
Proof.
  unfold invariant. simpl. repeat split; auto.
  repeat constructor.
Qed.

Lemma invariant_step w w' : invariant w -> step w w' -> invariant w'.
Proof.
  intros (Hf & Hp & Hdb & He) Hstep.
  destruct Hstep as [now symbol op num pr w w' Ht
                    | now r_op r_qty r_pr sym w Hop Hqty Hpr
                    | now w].
  - apply trade_accepted in Ht. destruct Ht as (-> & Hs & Hn & Hlt).
    unfold invariant. simpl. repeat split; try assumption.
    + apply Forall_app. split; [assumption|].
      constructor; [|constructor]. split; simpl; [assumption|].
      apply not_below_zero_ltb. assumption.
    + intros Hnil. destruct (trade_db w); discriminate.
  - unfold invariant, the_index.random_trade. simpl. repeat split; try assumption.
    + apply Forall_app. split; [assumption|].
      constructor; [|constructor].
      unfold record_ok, trade_op.new, trade_op.quantity, trade_op.price. split.
      * change (0 <= 1 + Z.rem r_qty 109).
        assert (0 <= Z.rem r_qty 109) by (apply Z.rem_nonneg; lia). lia.
      * apply nonneg_not_below_zero, random_price_sign. assumption.
    + intros Hnil. destruct (trade_db w); discriminate.
  - rewrite price_state. unfold invariant. cbn [trade_db gbce]. repeat split.
    + rewrite map_map. rewrite <- Hf. apply map_ext.
      intros s. apply set_price_fixed_fields.
    + apply Forall_map. eapply Forall_impl; [|exact Hp].
      intros s Hs. apply set_price_sign; assumption.
    + assumption.
    + intros Hnil. rewrite Hnil, (He Hnil). reflexivity.
Qed.

Lemma reachable_invariant w : reachable w -> invariant w.
Proof.
  induction 1 as [|w w' Hr IH Hs].
  - apply invariant_startup.
  - eapply invariant_step; eassumption.
Qed.

Lemma sample_par_values_positive (s : stock.t) (l : list stock.t) :
  map fixed_fields l = map fixed_fields the_index.sample ->
  In s l -> (0 <? stock.par_value s)%float = true.
Proof.
  intros Hf Hin.
  assert (Hin' : In (fixed_fields s) (map fixed_fields the_index.sample)).
  { rewrite <- Hf. apply in_map. assumption. }
  unfold fixed_fields in Hin'. simpl in Hin'.
  destruct Hin' as [H|[H|[H|[H|[H|[]]]]]]; injection H as _ _ _ _ <-; reflexivity.
Qed.

Lemma reachable_after_buy_at_zero_price : reachable after_buy_at_zero_price.
Proof.
  unfold after_buy_at_zero_price.
  eapply reachable_step; [eapply reachable_step; [apply reachable_startup|]|].
  - apply (step_trade 0 "TEA" BUY_STOCK 5 0%float). reflexivity.
  - apply step_price.
Qed.

Lemma reachable_after_buy_of_zero_shares : reachable after_buy_of_zero_shares.
Proof.
  unfold after_buy_of_zero_shares.
  eapply reachable_step; [apply reachable_startup|].
  apply (step_trade 0 "TEA" BUY_STOCK 0 1%float). reflexivity.
Qed.

(** ** C7: prices in the reachable states *)

(** C7, as stated, fails: after "buy 5 TEA 0" and "price" the entry TEA,
    whose par value is 1.00, has price 0 / 5 = 0, which is not greater
    than 0. *)
Lemma price_zero_is_reachable :
  exists (w : world) (s : stock.t),
    reachable w /\ In s (gbce w) /\
    (0 <? stock.par_value s)%float = true /\
    stock.price s = 0%float /\
    (0 <? stock.price s)%float = false.
Proof.
  exists after_buy_at_zero_price.
  exists (stock.mk "TEA" COMMON_STOCK 0.00 0 1.00 0).
  split; [apply reachable_after_buy_at_zero_price|].
  split; [left; vm_compute; reflexivity|].
  repeat split.
Qed.

(** C7, amended. In every state reachable from startup by accepted trades,
    random trades and price recalculations, every stock entry keeps the
    symbol, class, dividends and par value of the sample table, its par
    value is greater than 0, and its current price is never negative (the
    comparison price < 0 is false). While the trade log is empty every price
    is the par value, hence greater than 0. *)
Theorem reachable_price_never_negative :
  forall w : world,
    reachable w ->
    map fixed_fields (gbce w) = map fixed_fields the_index.sample /\
    (forall s : stock.t, In s (gbce w) ->
       (0 <? stock.par_value s)%float = true /\
       (stock.price s <? 0)%float = false) /\
    (trade_db w = [] ->
     forall s : stock.t, In s (gbce w) ->
       stock.price s = stock.par_value s /\ (0 <? stock.price s)%float = true).
Proof.
  intros w Hr. destruct (reachable_invariant w Hr) as (Hf & Hp & _ & He).
  split; [assumption|]. split.
  - intros s Hin. split.
    + eapply sample_par_values_positive; eassumption.
    + apply not_below_zero_ltb, nonneg_not_below_zero.
      rewrite Forall_forall in Hp. apply Hp. assumption.
  - intros Hnil s Hin. rewrite (He Hnil) in Hin. simpl in Hin.
    destruct Hin as [<-|[<-|[<-|[<-|[<-|[]]]]]]; split; reflexivity.
Qed.

Lemma reachable_price_never_negative_witness :
  let tea := stock.mk "TEA" COMMON_STOCK 0.00 0 1.00 0 in
  let ale := stock.new "ALE" COMMON_STOCK 0.23 0 0.60 in
  ((0 <? stock.par_value tea)%float = true /\
   (stock.price tea <? 0)%float = false) /\
  (stock.price ale = stock.par_value ale /\ (0 <? stock.price ale)%float = true).
Proof.
  intros tea ale. split.
  - apply (proj1 (proj2 (reachable_price_never_negative after_buy_at_zero_price
                           reachable_after_buy_at_zero_price)) tea).
    left. vm_compute. reflexivity.
  - apply (proj2 (proj2 (reachable_price_never_negative the_index.startup
                           reachable_startup)) eq_refl ale).
    right. right. left. reflexivity.
Defined.

(** ** C10: the division of [set_price] with a zero divisor *)

(** C10. The division of [set_price] is guarded by the count of matching
    trades alone: the new price is tq / q whenever that count is nonzero,
    whatever q is. There is a reachable trade log, the one after
    "buy 0 TEA 1", accepted because only a negative quantity is rejected, in
    which at least one trade matches the symbol TEA within the window, every
    such trade has quantity 0, and [set_price] evaluates (sum of quantity *
    price) / (sum of quantity) with the divisor equal to 0. *)
Theorem set_price_divides_by_zero_quantity :
  (forall (now interval : time_t) (db : list trade_op.t) (s : stock.t),
     let a := stock.scan (stock.symbol s) interval now db stock.sums0 in
     snd (stock.set_price now interval db s) =
       if int_to_bool (stock.trades a)
       then stock.with_price s (stock.tq a / stock.q a)%float else s) /\
  (exists (w : world) (now interval : time_t) (s : stock.t),
     reachable w /\ In s (gbce w) /\
     let m := Spec.trades_for (stock.symbol s) interval now (trade_db w) in
     let a := stock.scan (stock.symbol s) interval now (trade_db w) stock.sums0 in
     m <> [] /\
     Forall (fun r => trade_op.quantity r = 0) m /\
     fst (the_index.trade 0 "TEA" BUY_STOCK 0 1%float the_index.startup) = true /\
     int_to_bool (stock.trades a) = true /\
     stock.q a = Spec.sum_quantity m /\
     Spec.sum_quantity m = 0%float /\
     fst (stock.set_price now interval (trade_db w) s) =
       (Spec.sum_quantity_price m / 0)%float).
Proof.
  split; [reflexivity|].
  exists after_buy_of_zero_shares, 0, FIFTEEN_MINS,
    (stock.new "TEA" COMMON_STOCK 0.00 0 1.00).
  split; [apply reachable_after_buy_of_zero_shares|].
  split; [left; reflexivity|].
  cbv zeta. split; [vm_compute; discriminate|].
  split; [vm_compute; repeat constructor|].
  repeat split; vm_compute; reflexivity.
Qed.

(** ** C8: when [process_command] ends the loop *)

Lemma append_empty_r (s : string) : (s ++ EmptyString)%string = s.
Proof. induction s as [|c s IH]; simpl; [reflexivity | rewrite IH; reflexivity]. Qed.

Lemma append_snoc (s t : string) (c : ascii) :
  ((s ++ String c EmptyString) ++ t)%string = (s ++ String c t)%string.
Proof. induction s as [|d s IH]; simpl; [reflexivity | rewrite IH; reflexivity]. Qed.

(** The first field [split] produces is the text before the first space. *)
Lemma split_from_first_field (s : string) : forall cur : string,
  (0 <? List.length (split_from s cur))%nat
    && String.eqb (nth 0 (split_from s cur) EmptyString) "quit"
  = String.eqb (cur ++ Spec.first_field s) "quit".
Proof.
  induction s as [|c s IH]; intros cur; simpl.
  - rewrite append_empty_r. destruct cur; reflexivity.
  - destruct (Ascii.eqb c " "); simpl.
    + rewrite append_empty_r. reflexivity.
    + rewrite IH, append_snoc. reflexivity.
Qed.

Section DispatcherFacts.

Variable pow : float -> float -> float.
Variable atoi : string -> Z.
Variable atof : string -> float.

Lemma process_command_result (e : env) (line : string) (w : world) :
  fst (fst (process_command pow atoi atof e line w)) =
  negb ((0 <? List.length (split line))%nat
        && String.eqb (nth 0 (split line) EmptyString) "quit").
Proof.
  unfold process_command. cbv zeta.
  destruct (0 <? List.length (split line))%nat; [|reflexivity].
  destruct (String.eqb (nth 0 (split line) EmptyString) "quit"); [reflexivity|].
  repeat match goal with
         | |- context [if ?b then _ else _] => destruct b
         | |- context [the_index.trade ?a ?b ?c ?d ?f ?g] =>
             destruct (the_index.trade a b c d f g) as [[|] ?]
         | |- context [the_index.price ?a ?b] => destruct (the_index.price a b)
         end; reflexivity.
Qed.

(** C8, amended. [process_command] returns false, which ends the loop of
    [main], if and only if the text of the line before its first space
    character is "quit"; on every other line (an empty one, one that starts
    with a space, an unknown command, a malformed buy or sell, an unknown
    symbol) it returns true. *)
Theorem process_command_false_iff_quit :
  forall (e : env) (line : string) (w : world),
    (fst (fst (process_command pow atoi atof e line w)) = false <->
       Spec.first_field line = "quit") /\
    (fst (fst (process_command pow atoi atof e line w)) = true <->
       Spec.first_field line <> "quit").
Proof.
  intros e line w. rewrite process_command_result.
  unfold split. rewrite split_from_first_field. simpl append.
  destruct (String.eqb_spec (Spec.first_field line) "quit") as [Heq|Hne]; simpl.
  - split; split; intros H; try reflexivity; try assumption;
      try discriminate; contradiction.
  - split; split; intros H; try reflexivity; try assumption;
      try discriminate; contradiction.
Qed.

End DispatcherFacts.

(** C8, as stated, fails: the first whitespace-separated token of the line
    " quit" is "quit", yet [process_command] returns true on it, because the
    line is cut at every single space and its first field is empty. The same
    happens when a tab follows the word. *)
Lemma quit_after_space_continues :
  Spec.first_token " quit" = Some "quit" /\
  split " quit" = [EmptyString; "quit"] /\
  (forall pow atoi atof e w,
     fst (fst (process_command pow atoi atof e " quit" w)) = true) /\
  Spec.first_token (String "q" (String "u" (String "i" (String "t"
     (String (ascii_of_nat 9) "now"))))) = Some "quit" /\
  (forall pow atoi atof e w,
     fst (fst (process_command pow atoi atof e
       (String "q" (String "u" (String "i" (String "t"
          (String (ascii_of_nat 9) "now"))))) w)) = true).
Proof.
  split; [reflexivity|]. split; [reflexivity|].
  split; [intros; reflexivity|]. split; [reflexivity|].
  intros. reflexivity.
Qed.

(** ** C9: the trade log only grows at its end *)

Lemma step_appends (w w' : world) :
  step w w' -> exists added, trade_db w' = (trade_db w ++ added)%list.
Proof.
  intros [now symbol op num pr w0 w0' Ht
         | now r_op r_qty r_pr sym w0 _ _ _
         | now w0].
  - apply trade_accepted in Ht. destruct Ht as (-> & _). eexists. reflexivity.
  - eexists. reflexivity.
  - rewrite price_state. exists []. simpl. rewrite app_nil_r. reflexivity.
Qed.

Lemma trade_rejected now symbol op num pr (w w' : world) :
  the_index.trade now symbol op num pr w = (false, w') -> w' = w.
Proof.
  unfold the_index.trade.
  destruct (_ || _); [|discriminate]. intros Ht. injection Ht as <-. reflexivity.
Qed.

Section LogFacts.

Variable pow : float -> float -> float.
Variable atoi : string -> Z.
Variable atof : string -> float.

Lemma random_trades_appends (e : env) (w : world) :
  exists r1 r2 r3 r4 r5 : trade_op.t,
    random_trades e w =
    {| trade_db := (trade_db w ++ [r1; r2; r3; r4; r5])%list; gbce := gbce w |}.
Proof.
  unfold random_trades, the_index.random_trade. cbn [trade_db gbce].
  do 5 eexists. repeat rewrite <- app_assoc. cbn [app]. reflexivity.
Qed.

Lemma trade_state (now : time_t) (symbol : string) (op num : Z) (pr : float) (w : world) :
  snd (the_index.trade now symbol op num pr w) = w \/
  snd (the_index.trade now symbol op num pr w) =
    {| trade_db := (trade_db w ++ [trade_op.new now symbol op num pr])%list;
       gbce := gbce w |}.
Proof.
  unfold the_index.trade.
  destruct (the_index.empty symbol || (pr <? 0)%float || (num <? 0)); simpl; auto.
Qed.

Lemma process_command_appends (e : env) (line : string) (w : world) :
  exists added : list trade_op.t,
    trade_db (snd (fst (process_command pow atoi atof e line w))) =
    (trade_db w ++ added)%list.
Proof.
  assert (Hsame : exists added : list trade_op.t, trade_db w = (trade_db w ++ added)%list).
  { exists []. rewrite app_nil_r. reflexivity. }
  unfold process_command. cbv zeta.
  destruct (0 <? List.length (split line))%nat; [|exact Hsame].
  destruct (String.eqb _ "quit"); [exact Hsame|].
  destruct (String.eqb _ "help"); [exact Hsame|].
  destruct (String.eqb _ "index"); [exact Hsame|].
  destruct (String.eqb _ "trade").
  { destruct (random_trades_appends e w) as (r1 & r2 & r3 & r4 & r5 & ->).
    eexists. reflexivity. }
  destruct (String.eqb _ "buy" || String.eqb _ "sell").
  { destruct (3 <? List.length (split line))%nat; [|exact Hsame].
    destruct (negb _); [exact Hsame|].
    match goal with
    | |- context [the_index.trade ?a ?b ?c ?d ?f ?g] =>
        destruct (trade_state a b c d f g) as [Ht|Ht];
        destruct (the_index.trade a b c d f g) as [[|] w']; simpl in Ht; subst w'
    end; simpl; try exact Hsame; eexists; reflexivity. }
  destruct (String.eqb _ "list"); [exact Hsame|].
  destruct (String.eqb _ "price").
  { pose proof (price_state (now e) w) as Hp.
    destruct (the_index.price (now e) w) as [w' outs]. simpl in Hp. subst w'.
    exact Hsame. }
  destruct (String.eqb _ "yield"); [exact Hsame|].
  destruct (String.eqb _ "pe"); exact Hsame.
Qed.

Lemma process_command_trade (e : env) (line : string) (w : world) :
  nth 0 (split line) EmptyString = "trade" ->
  snd (fst (process_command pow atoi atof e line w)) = random_trades e w.
Proof.
  intros H0. unfold process_command. cbv zeta. rewrite H0.
  destruct (split line) as [|c0 rest]; [discriminate|]. reflexivity.
Qed.

Lemma process_command_buy_sell (e : env) (line : string) (w : world) :
  nth 0 (split line) EmptyString = "buy" \/ nth 0 (split line) EmptyString = "sell" ->
  snd (fst (process_command pow atoi atof e line w)) =
  if (3 <? List.length (split line))%nat && the_index.exist (nth 2 (split line) EmptyString) w
  then snd (the_index.trade (now e) (nth 2 (split line) EmptyString)
              (if String.eqb (nth 0 (split line) EmptyString) "sell"
               then SELL_STOCK else BUY_STOCK)
              (atoi (nth 1 (split line) EmptyString))
              (atof (nth 3 (split line) EmptyString)) w)
  else w.
Proof.
  intros H0. unfold process_command. cbv zeta.
  destruct (split line) as [|c0 rest] eqn:Hs;
    [destruct H0 as [H0|H0]; discriminate|].
  cbn [nth] in *. change (0 <? List.length (c0 :: rest))%nat with true. cbv iota.
  destruct H0 as [-> | ->]; cbn [String.eqb Ascii.eqb Bool.eqb orb negb];
    destruct (3 <? List.length _)%nat; cbn [andb]; try reflexivity;
    destruct (the_index.exist _ w); cbn [negb]; try reflexivity;
    match goal with
    | |- context [the_index.trade ?a ?b ?c ?d ?f ?g] =>
        destruct (the_index.trade a b c d f g) as [[|] w']
    end; reflexivity.
Qed.

End LogFacts.

(** C9. The trade log is append-only. Each state-changing operation of the
    index, and each command of the dispatcher, leaves the log as it was or
    appends records at its end: the log before is a prefix of the log after,
    so no record is changed, moved or deleted. In particular a buy or sell
    with at least four fields, an existing non-empty symbol, a quantity that
    is not negative and a price that is not negative appends exactly one
    record; a buy or sell with fewer than four fields, an unknown symbol, or
    a negative quantity or price (which [trade] rejects) appends none, the
    whole state being unchanged; and "trade" appends exactly five records. *)
Theorem trade_log_append_only :
  (forall w w' : world,
     step w w' -> exists added, trade_db w' = (trade_db w ++ added)%list) /\
  (forall (pow : float -> float -> float) (atoi : string -> Z) (atof : string -> float)
          (e : env) (line : string) (w : world),
     let cmd := split line in
     let cmd0 := nth 0 cmd EmptyString in
     let cmd1 := nth 1 cmd EmptyString in
     let cmd2 := nth 2 cmd EmptyString in
     let cmd3 := nth 3 cmd EmptyString in
     let w' := snd (fst (process_command pow atoi atof e line w)) in
     (exists added, trade_db w' = (trade_db w ++ added)%list) /\
     (cmd0 = "trade" ->
        exists r1 r2 r3 r4 r5,
          trade_db w' = (trade_db w ++ [r1; r2; r3; r4; r5])%list) /\
     (cmd0 = "buy" \/ cmd0 = "sell" ->
        ((3 < List.length cmd)%nat ->
         the_index.exist cmd2 w = true -> cmd2 <> EmptyString ->
         0 <= atoi cmd1 -> (atof cmd3 <? 0)%float = false ->
         trade_db w' =
           (trade_db w ++
            [trade_op.mk (now e) cmd2
               (if String.eqb cmd0 "sell" then SELL_STOCK else BUY_STOCK)
               (atoi cmd1) (atof cmd3)])%list) /\
        ((List.length cmd <= 3)%nat \/ the_index.exist cmd2 w = false \/
         atoi cmd1 < 0 \/ (atof cmd3 <? 0)%float = true ->
         w' = w))).
Proof.
  split; [exact step_appends|].
  intros pow atoi atof e line w cmd cmd0 cmd1 cmd2 cmd3 w'.
  split; [apply process_command_appends|]. split.
  - intros H0. subst w'.
    rewrite (process_command_trade pow atoi atof e line w H0).
    destruct (random_trades_appends e w) as (r1 & r2 & r3 & r4 & r5 & ->).
    exists r1, r2, r3, r4, r5. reflexivity.
  - intros H0. subst w'.
    rewrite (process_command_buy_sell pow atoi atof e line w H0).
    fold cmd. fold cmd0 cmd1 cmd2 cmd3. split.
    + intros Hlen Hex Hne Hq Hp.
      apply Nat.ltb_lt in Hlen. rewrite Hlen, Hex. cbn [andb].
      unfold the_index.trade. rewrite Hp.
      destruct cmd2 as [|c s]; [contradiction|].
      destruct (Z.ltb_spec (atoi cmd1) 0); [lia|].
      cbn [the_index.empty orb snd trade_db trade_op.new].
      destruct H0 as [-> | ->]; reflexivity.
    + intros [Hlen | [Hex | Hbad]].
      * apply Nat.ltb_ge in Hlen. rewrite Hlen. reflexivity.
      * rewrite Hex, andb_false_r. reflexivity.
      * destruct (_ && _); [|reflexivity].
        match goal with
        | |- snd ?t = w =>
            assert (Hrej : fst t = false)
              by (apply trade_rejects; tauto);
            destruct t as [ok w0] eqn:Ht
        end.
        simpl in Hrej. subst ok. apply trade_rejected in Ht. exact Ht.
Qed.

Lemma trade_log_append_only_witness :
  let e := {| now := 7; rand := fun n => Z.of_nat n * 1000 |} in
  let w := the_index.startup in
  let run := fun line => snd (fst (process_command Libc.pow Libc.atoi Libc.atof e line w)) in
  trade_db (run "buy 5 ALE 3.00") = [trade_op.mk 7 "ALE" BUY_STOCK 5 3%float] /\
  run "buy 5 ZZZ 3.00" = w /\
  run "sell 5" = w /\
  run "sell -5 ALE 3.00" = w /\
  (exists r1 r2 r3 r4 r5, trade_db (run "trade") = [r1; r2; r3; r4; r5]).
Proof.
  intros e w run.
  pose proof (proj2 trade_log_append_only Libc.pow Libc.atoi Libc.atof e) as H.
  split; [|split; [|split; [|split]]].
  - destruct (H "buy 5 ALE 3.00" w) as (_ & _ & Hb).
    destruct (Hb (or_introl eq_refl)) as [Hone _].
    apply Hone.
    + vm_compute. lia.
    + reflexivity.
    + discriminate.
    + vm_compute. discriminate.
    + reflexivity.
  - destruct (H "buy 5 ZZZ 3.00" w) as (_ & _ & Hb).
    destruct (Hb (or_introl eq_refl)) as [_ Hnone].
    apply Hnone. right. left. reflexivity.
  - destruct (H "sell 5" w) as (_ & _ & Hb).
    destruct (Hb (or_intror eq_refl)) as [_ Hnone].
    apply Hnone. left. vm_compute. lia.
  - destruct (H "sell -5 ALE 3.00" w) as (_ & _ & Hb).
    destruct (Hb (or_intror eq_refl)) as [_ Hnone].
    apply Hnone. right. right. left. vm_compute. reflexivity.
  - destruct (H "trade" w) as (_ & Ht & _).
    apply Ht. reflexivity.
Defined.

(** ** The dispatcher stays within the reachable states *)

Section DispatcherReach.

Variable pow : float -> float -> float.
Variable atoi : string -> Z.
Variable atof : string -> float.

Lemma random_trades_reachable (e : env) (w : world) :
  (forall n, 0 <= rand e n) -> reachable w -> reachable (random_trades e w).
Proof.
  intros Hrand Hw. unfold random_trades. cbv zeta.
  repeat (eapply reachable_step; [|apply step_random_trade; apply Hrand]).
  exact Hw.
Qed.

Lemma process_command_reachable (e : env) (line : string) (w : world) :
  (forall n, 0 <= rand e n) -> reachable w ->
  reachable (snd (fst (process_command pow atoi atof e line w))).
Proof.
  intros Hrand Hw. unfold process_command. cbv zeta.
  repeat match goal with
         | |- context [if String.eqb ?a "trade" then _ else _] =>
             destruct (String.eqb a "trade");
             [apply random_trades_reachable; assumption|]
         | |- context [if ?b then _ else _] => destruct b
         | |- context [the_index.trade ?a ?b ?c ?d ?f ?g] =>
             let Ht := fresh "Ht" in
             destruct (the_index.trade a b c d f g) as [[|] w'] eqn:Ht
         | |- context [the_index.price ?a ?b] =>
             let Hp := fresh "Hp" in
             pose proof (step_price a b) as Hp; destruct (the_index.price a b)
         end; simpl in *; try assumption;
    try (eapply reachable_step; [exact Hw|]; try assumption;
         eapply step_trade; eassumption).
  all: apply trade_rejected in Ht; subst w'; assumption.
Qed.

Lemma main_loop_reachable (input : list (env * string)) : forall w : world,
  Forall (fun i => forall n, 0 <= rand (fst i) n) input ->
  reachable w -> reachable (main_loop pow atoi atof input w).
Proof.
  induction input as [|[e line] rest IH]; intros w Hin Hw; simpl; [assumption|].
  inversion Hin as [|? ? He Hrest]; subst. simpl in He.
  pose proof (process_command_reachable e line w He Hw) as Hstep.
  destruct (process_command pow atoi atof e line w) as [[continue w'] outs].
  simpl in Hstep. destruct continue; [apply IH|]; assumption.
Qed.

End DispatcherReach.

(** The two sample runs are what the dispatcher does on these lines. *)
Remark sample_runs_by_commands :
  let e := {| now := 0; rand := fun _ => 0 |} in
  main_loop Libc.pow Libc.atoi Libc.atof [(e, "buy 5 TEA 0"); (e, "price")]
    the_index.startup = after_buy_at_zero_price /\
  main_loop Libc.pow Libc.atoi Libc.atof [(e, "buy 0 TEA 1")]
    the_index.startup = after_buy_of_zero_shares.
Proof. split; vm_compute; reflexivity. Qed.

(** * Further properties of the code *)

(** ** The search [exist] and the symbols of the index *)

Lemma exist_from_In (symbol : string) (l : list stock.t) :
  the_index.exist_from symbol l = true <-> In symbol (map stock.symbol l).
Proof.
  induction l as [|st l IH]; simpl.
  - split; [discriminate | contradiction].
  - unfold stock.get_symbol.
    destruct (String.eqb_spec symbol (stock.symbol st)) as [Heq|Hne].
    + split; auto.
    + rewrite IH. split; [auto|]. intros [H|H]; [congruence | assumption].
Qed.

Lemma fixed_fields_symbols (l l' : list stock.t) :
  map fixed_fields l = map fixed_fields l' -> map stock.symbol l = map stock.symbol l'.
Proof.
  intros H.
  assert (Hs : forall k, map stock.symbol k =
                         map (fun f => fst (fst (fst (fst f)))) (map fixed_fields k)).
  { intros k. rewrite map_map. reflexivity. }
  rewrite (Hs l), (Hs l'), H. reflexivity.
Qed.

Lemma reachable_symbols (w : world) :
  reachable w -> map stock.symbol (gbce w) = sample_symbols.
Proof.
  intros Hr. destruct (reachable_invariant w Hr) as (Hf & _).
  apply fixed_fields_symbols in Hf. exact Hf.
Qed.

(** X1. In every reachable state [exist(symbol)] answers true exactly for
    the five symbols of the sample table: the search finds a symbol if and
    only if an entry carries it, and no operation adds, removes or renames
    an entry. *)
Theorem exist_iff_sample_symbol :
  forall (w : world) (symbol : string),
    reachable w ->
    (the_index.exist symbol w = true <-> In symbol sample_symbols).
Proof.
  intros w symbol Hr. unfold the_index.exist.
  rewrite exist_from_In, (reachable_symbols w Hr). reflexivity.
Qed.

Lemma exist_iff_sample_symbol_witness :
  the_index.exist "ALE" after_buy_at_zero_price = true /\
  (the_index.exist "XYZ" after_buy_at_zero_price = true -> False).
Proof.
  split.
  - apply (proj2 (exist_iff_sample_symbol after_buy_at_zero_price "ALE"
                    reachable_after_buy_at_zero_price)).
    right. right. left. reflexivity.
  - intros H.
    apply (proj1 (exist_iff_sample_symbol after_buy_at_zero_price "XYZ"
                    reachable_after_buy_at_zero_price)) in H.
    simpl in H. repeat destruct H as [H|H]; try discriminate H. exact H.
Defined.

(** ** Random trades are trades that pass the validation *)

Lemma random_price_bounds (r : Z) :
  0 <= r ->
  (0.41 <=? random_price r)%float = true /\ (random_price r <=? 3.39)%float = true.
Proof.
  intros Hr.
  assert (Hk : 0 <= Z.rem r 299 < 299) by (apply Z.rem_bound_pos; lia).
  assert (Hall : forallb (fun n =>
            (0.41 <=? random_price (Z.of_nat n))%float
            && (random_price (Z.of_nat n) <=? 3.39)%float) (seq 0 299) = true)
    by (vm_compute; reflexivity).
  rewrite forallb_forall in Hall.
  specialize (Hall (Z.to_nat (Z.rem r 299))).
  assert (Hin : In (Z.to_nat (Z.rem r 299)) (seq 0 299)) by (apply in_seq; lia).
  apply Hall in Hin. rewrite Z2Nat.id in Hin by lia.
  apply andb_true_iff in Hin.
  assert (Hsame : random_price (Z.rem r 299) = random_price r).
  { unfold random_price. rewrite Z.rem_rem by lia. reflexivity. }
  rewrite Hsame in Hin. exact Hin.
Qed.

(** X2. For non-negative results of [rand()] the record [random_trade]
    appends has a quantity between 1 and 109 and a price between 0.41 and
    3.39, and, the symbol being non-empty, [random_trade] does exactly what
    the call of [trade] with that side, quantity and price does, a call
    that [trade] accepts. *)
Theorem random_trade_is_accepted_trade :
  forall (now : time_t) (r_op r_qty r_pr : Z) (sym : string) (w : world),
    0 <= r_qty -> 0 <= r_pr -> sym <> EmptyString ->
    let op := if int_to_bool (Z.land r_op 1) then BUY_STOCK else SELL_STOCK in
    let qty := 1 + Z.rem r_qty 109 in
    let pr := random_price r_pr in
    1 <= qty <= 109 /\
    (0.41 <=? pr)%float = true /\ (pr <=? 3.39)%float = true /\
    the_index.trade now sym op qty pr w =
      (true, the_index.random_trade now r_op r_qty r_pr sym w).
Proof.
  intros now r_op r_qty r_pr sym w Hq Hp Hs op qty pr.
  assert (Hrem : 0 <= Z.rem r_qty 109 < 109) by (apply Z.rem_bound_pos; lia).
  destruct (random_price_bounds r_pr Hp) as [Hlo Hhi].
  split; [subst qty; lia|]. split; [exact Hlo|]. split; [exact Hhi|].
  unfold the_index.trade.
  assert (Hlt : (pr <? 0)%float = false).
  { apply not_below_zero_ltb, nonneg_not_below_zero, random_price_sign. exact Hp. }
  rewrite Hlt.
  destruct sym as [|c s]; [contradiction|].
  destruct (Z.ltb_spec qty 0); [subst qty; lia|].
  reflexivity.
Qed.

Lemma random_trade_is_accepted_trade_witness :
  the_index.trade 7 "GIN" SELL_STOCK (1 + Z.rem 1000 109) (random_price 12345)
    the_index.startup =
  (true, the_index.random_trade 7 4 1000 12345 "GIN" the_index.startup).
Proof.
  refine (proj2 (proj2 (proj2 (random_trade_is_accepted_trade 7 4 1000 12345 "GIN"
                                 the_index.startup _ _ _)))).
  - lia.
  - lia.
  - discriminate.
Defined.

(** ** The ratios in the reachable states *)

Lemma reachable_fixed_fields (w : world) (s : stock.t) :
  reachable w -> In s (gbce w) ->
  In (fixed_fields s) (map fixed_fields the_index.sample).
Proof.
  intros Hr Hin. destruct (reachable_invariant w Hr) as (Hf & _).
  rewrite <- Hf. apply in_map. exact Hin.
Qed.

(** X3. In every reachable state every entry of the index has one of the two
    classes, so [get_dividend_yield] never takes its default branch: it is
    fixed_dividend / price for GIN, the one preferred stock, and
    last_dividend / price for the others. [get_pe_ratio] is 0 for TEA, whose
    last dividend is 0, and price / last_dividend for the others. *)
Theorem reachable_ratios :
  forall (w : world) (s : stock.t),
    reachable w -> In s (gbce w) ->
    (stock.type s = COMMON_STOCK \/ stock.type s = PREF_STOCK) /\
    stock.get_dividend_yield s =
      (if String.eqb (stock.symbol s) "GIN"
       then stock.fixed_dividend s / stock.price s
       else stock.last_dividend s / stock.price s)%float /\
    stock.get_pe_ratio s =
      (if String.eqb (stock.symbol s) "TEA"
       then 0 else stock.price s / stock.last_dividend s)%float.
Proof.
  intros w s Hr Hin.
  pose proof (reachable_fixed_fields w s Hr Hin) as Hf.
  destruct s as [sy ty ld fd pv pr].
  unfold fixed_fields in Hf. simpl in Hf.
  unfold stock.get_dividend_yield, stock.get_pe_ratio. simpl.
  destruct Hf as [H|[H|[H|[H|[H|[]]]]]];
    injection H as <- <- <- <- <-; (split; [auto|]); split; reflexivity.
Qed.

Lemma reachable_ratios_witness :
  let tea := stock.mk "TEA" COMMON_STOCK 0.00 0 1.00 0 in
  stock.get_dividend_yield tea = (0.00 / 0)%float /\
  stock.get_pe_ratio tea = 0%float.
Proof.
  intros tea.
  refine (proj2 (reachable_ratios after_buy_at_zero_price tea
                   reachable_after_buy_at_zero_price _)).
  left. vm_compute. reflexivity.
Defined.

(** ** The records the dispatcher writes *)

Lemma new_operation now sy op qty pr :
  trade_op.operation (trade_op.new now sy op qty pr) = BUY_STOCK \/
  trade_op.operation (trade_op.new now sy op qty pr) = SELL_STOCK.
Proof. simpl. destruct (op =? BUY_STOCK); auto. Qed.

Section DispatcherLog.

Variable pow : float -> float -> float.
Variable atoi : string -> Z.
Variable atof : string -> float.

(** How one command can change the log. *)
Lemma process_command_log_cases (e : env) (line : string) (w : world) :
  let w' := snd (fst (process_command pow atoi atof e line w)) in
  trade_db w' = trade_db w \/
  w' = random_trades e w \/
  (exists sym op num pr,
     the_index.exist sym w = true /\
     the_index.trade (now e) sym op num pr w = (true, w')).
Proof.
  unfold process_command. cbv zeta.
  destruct (0 <? List.length (split line))%nat; [|left; reflexivity].
  destruct (String.eqb _ "quit"); [left; reflexivity|].
  destruct (String.eqb _ "help"); [left; reflexivity|].
  destruct (String.eqb _ "index"); [left; reflexivity|].
  destruct (String.eqb _ "trade"); [right; left; reflexivity|].
  destruct (String.eqb _ "buy" || String.eqb _ "sell").
  { destruct (3 <? List.length (split line))%nat; [|left; reflexivity].
    destruct (the_index.exist _ w) eqn:Hex; [|left; reflexivity].
    cbn [negb].
    match goal with
    | |- context [the_index.trade ?a ?b ?c ?d ?f ?g] =>
        destruct (the_index.trade a b c d f g) as [[|] w'] eqn:Ht
    end; simpl.
    - right. right. eexists _, _, _, _. split; [exact Hex | exact Ht].
    - left. apply trade_rejected in Ht. subst w'. reflexivity. }
  destruct (String.eqb _ "list"); [left; reflexivity|].
  destruct (String.eqb _ "price").
  { pose proof (price_state (now e) w) as Hp.
    destruct (the_index.price (now e) w) as [w' outs]. simpl in Hp. subst w'.
    left. reflexivity. }
  destruct (String.eqb _ "yield"); [left; reflexivity|].
  destruct (String.eqb _ "pe"); left; reflexivity.
Qed.

Lemma process_command_from_index (e : env) (line : string) (w : world) :
  reachable w ->
  Forall record_from_index (trade_db w) ->
  Forall record_from_index
    (trade_db (snd (fst (process_command pow atoi atof e line w)))).
Proof.
  intros Hr Hdb.
  destruct (process_command_log_cases e line w)
    as [Hsame | [Hrand | (sym & op & num & pr & Hex & Ht)]].
  - rewrite Hsame. exact Hdb.
  - rewrite Hrand. unfold random_trades, the_index.random_trade. cbn [trade_db].
    repeat (apply Forall_app; split); try exact Hdb;
      (constructor; [split; [simpl; tauto | apply new_operation] | constructor]).
  - apply trade_accepted in Ht. destruct Ht as (Hw' & _).
    rewrite Hw'. cbn [trade_db]. apply Forall_app. split; [exact Hdb|].
    constructor; [|constructor]. split; [|apply new_operation].
    simpl. unfold the_index.exist in Hex.
    rewrite exist_from_In, (reachable_symbols w Hr) in Hex. exact Hex.
Qed.

Lemma main_loop_from_index (input : list (env * string)) : forall w : world,
  Forall (fun i => forall n, 0 <= rand (fst i) n) input ->
  reachable w -> Forall record_from_index (trade_db w) ->
  Forall record_from_index (trade_db (main_loop pow atoi atof input w)).
Proof.
  induction input as [|[e line] rest IH]; intros w Hin Hr Hdb; simpl; [assumption|].
  inversion Hin as [|? ? He Hrest]; subst. simpl in He.
  pose proof (process_command_reachable pow atoi atof e line w He Hr) as Hr'.
  pose proof (process_command_from_index e line w Hr Hdb) as Hdb'.
  destruct (process_command pow atoi atof e line w) as [[continue w'] outs].
  simpl in Hr', Hdb'. destruct continue; [apply IH|]; assumption.
Qed.

(** X4. Whatever lines the loop of [main] has read from startup, with
    non-negative results of [rand()], every record of the trade log carries
    a symbol that [exist] finds in the index, one of the two sides, a
    quantity that is not negative and a price that is not negative: the
    dispatcher never records a trade on an unknown symbol. *)
Theorem dispatcher_records_listed :
  forall input : list (env * string),
    Forall (fun i => forall n, 0 <= rand (fst i) n) input ->
    let w := main_loop pow atoi atof input the_index.startup in
    Forall (record_listed w) (trade_db w).
Proof.
  intros input Hin w.
  assert (Hr : reachable w)
    by (apply main_loop_reachable; [exact Hin | apply reachable_startup]).
  assert (Hfrom : Forall record_from_index (trade_db w))
    by (apply main_loop_from_index;
        [exact Hin | apply reachable_startup | constructor]).
  destruct (reachable_invariant w Hr) as (_ & _ & Hok & _).
  rewrite Forall_forall in *. intros r Hr_in.
  destruct (Hfrom r Hr_in) as [Hsym Hop].
  destruct (Hok r Hr_in) as [Hq Hp].
  unfold record_listed. repeat split; try assumption.
  - unfold the_index.exist. rewrite exist_from_In, (reachable_symbols w Hr). exact Hsym.
  - apply not_below_zero_ltb. exact Hp.
Qed.

End DispatcherLog.

Lemma dispatcher_records_listed_witness :
  let e := {| now := 7; rand := fun n => Z.of_nat n * 1000 |} in
  let w := main_loop Libc.pow Libc.atoi Libc.atof
             [(e, "trade"); (e, "buy 5 ALE 3.00"); (e, "sell 2 XYZ 1.00")]
             the_index.startup in
  Forall (record_listed w) (trade_db w).
Proof.
  intros e.
  apply (dispatcher_records_listed Libc.pow Libc.atoi Libc.atof
           [(e, "trade"); (e, "buy 5 ALE 3.00"); (e, "sell 2 XYZ 1.00")]).
  repeat constructor; intros n; simpl; lia.
Defined.

(** ** Recalculating the prices *)

Lemma set_price_symbol now interval db s :
  stock.symbol (snd (stock.set_price now interval db s)) = stock.symbol s.
Proof.
  unfold stock.set_price. cbv zeta. simpl snd.
  destruct (int_to_bool _); reflexivity.
Qed.

Lemma set_price_twice now interval db s :
  snd (stock.set_price now interval db (snd (stock.set_price now interval db s))) =
  snd (stock.set_price now interval db s).
Proof.
  unfold stock.set_price. cbv zeta. cbn [snd fst].
  destruct (int_to_bool (stock.trades
              (stock.scan (stock.symbol s) interval now db stock.sums0))) eqn:Ht.
  - cbn [stock.with_price stock.symbol]. rewrite Ht. reflexivity.
  - rewrite Ht. reflexivity.
Qed.

Lemma price_from_outputs now db l :
  snd (the_index.price_from now db l) =
  map (fun st => out_price (stock.symbol st) (stock.price st))
      (fst (the_index.price_from now db l)).
Proof.
  induction l as [|st l IH]; simpl; [reflexivity|].
  destruct (the_index.price_from now db l) as [rest outs]. simpl in *.
  rewrite IH. reflexivity.
Qed.

Lemma price_outputs now w :
  snd (the_index.price now w) =
  map (fun st => out_price (stock.symbol st) (stock.price st))
      (gbce (fst (the_index.price now w))).
Proof.
  unfold the_index.price.
  pose proof (price_from_outputs now (trade_db w) (gbce w)) as H.
  destruct (the_index.price_from now (trade_db w) (gbce w)) as [l' outs].
  simpl in *. exact H.
Qed.

(** X5. Recalculating the prices twice at the same clock reading is the
    same as once: the second [price()] leaves the state as the first made
    it and prints the same lines, because a recalculated price depends on
    the log and the symbol only, not on the price it replaces. *)
Theorem price_idempotent :
  forall (now : time_t) (w : world),
    the_index.price now (fst (the_index.price now w)) = the_index.price now w.
Proof.
  intros now w.
  assert (Hst : fst (the_index.price now (fst (the_index.price now w))) =
                fst (the_index.price now w)).
  { rewrite (price_state now (fst (the_index.price now w))).
    rewrite (price_state now w). cbn [trade_db gbce]. f_equal.
    rewrite map_map. apply map_ext. intros s. apply set_price_twice. }
  rewrite (surjective_pairing (the_index.price now (fst (the_index.price now w)))).
  rewrite (surjective_pairing (the_index.price now w)) at 3.
  rewrite price_outputs, Hst, <- price_outputs. reflexivity.
Qed.

(** X6. [price()] never touches the trade log nor the fixed fields of the
    entries, keeps the entries in their order, and the line it prints for
    each entry shows the price it has just stored in it. *)
Theorem price_changes_prices_only :
  forall (now : time_t) (w : world),
    trade_db (fst (the_index.price now w)) = trade_db w /\
    map fixed_fields (gbce (fst (the_index.price now w))) = map fixed_fields (gbce w) /\
    snd (the_index.price now w) =
      map (fun st => out_price (stock.symbol st) (stock.price st))
          (gbce (fst (the_index.price now w))).
Proof.
  intros now w. split; [|split].
  - rewrite price_state. reflexivity.
  - rewrite price_state. cbn [gbce]. rewrite map_map. apply map_ext.
    intros s. apply set_price_fixed_fields.
  - apply price_outputs.
Qed.

(** X7. [set_price] reads the matching records only: two logs with the same
    records of the entry's symbol within the window, in the same order,
    give the same result, whatever else they hold (records of other symbols,
    records older than the window). *)
Theorem set_price_reads_matching_only :
  forall (now interval : time_t) (db db' : list trade_op.t) (s : stock.t),
    Spec.trades_for (stock.symbol s) interval now db =
    Spec.trades_for (stock.symbol s) interval now db' ->
    stock.set_price now interval db s = stock.set_price now interval db' s.
Proof.
  intros now interval db db' s H.
  unfold stock.set_price. rewrite !scan_fold. cbv zeta. rewrite H. reflexivity.
Qed.

Lemma set_price_reads_matching_only_witness :
  let s := stock.new "ALE" COMMON_STOCK 0.23 0 0.60 in
  stock.set_price 1000 FIFTEEN_MINS
    [trade_op.new 0 "ALE" BUY_STOCK 9 9.0; trade_op.new 990 "TEA" BUY_STOCK 7 1.5;
     trade_op.new 995 "ALE" SELL_STOCK 20 3.0] s =
  stock.set_price 1000 FIFTEEN_MINS [trade_op.new 995 "ALE" SELL_STOCK 20 3.0] s.
Proof.
  intros s. apply set_price_reads_matching_only. vm_compute. reflexivity.
Defined.

(** ** Zero prices in the index *)

Lemma shift_right_52 (m : positive) :
  iter_pos shr_1 52
    {| shr_m := Z.pos (4503599627370496 * m); shr_r := false; shr_s := false |}
  = {| shr_m := Z.pos m; shr_r := false; shr_s := false |}.
Proof. reflexivity. Qed.

Lemma digits_scaled_52 (m : positive) :
  Z.pos (digits2_pos (4503599627370496 * m)) = Z.pos (digits2_pos m) + 52.
Proof. cbn. lia. Qed.

Lemma shr_fexp_scaled (m : positive) (e : Z) :
  fexp prec emax (Z.pos (digits2_pos m) + e) = e ->
  shr_fexp prec emax (Z.pos (4503599627370496 * m)) (e + -52) loc_Exact =
  ({| shr_m := Z.pos m; shr_r := false; shr_s := false |}, e).
Proof.
  intros Hc. unfold shr_fexp, Zdigits2. rewrite digits_scaled_52.
  replace (Z.pos (digits2_pos m) + 52 + (e + -52)) with (Z.pos (digits2_pos m) + e) by lia.
  rewrite Hc.
  replace (e - (e + -52)) with 52 by lia.
  unfold shr, shr_record_of_loc. rewrite shift_right_52. f_equal. lia.
Qed.

Lemma shr_fexp_canonical (m : positive) (e : Z) :
  fexp prec emax (Z.pos (digits2_pos m) + e) = e ->
  shr_fexp prec emax (Z.pos m) e loc_Exact =
  ({| shr_m := Z.pos m; shr_r := false; shr_s := false |}, e).
Proof.
  intros Hc. unfold shr_fexp, Zdigits2. rewrite Hc, Z.sub_diag. reflexivity.
Qed.

Lemma SFmul_one (x : spec_float) :
  valid_binary x = true ->
  SFmul prec emax x (S754_finite false 4503599627370496 (-52)) = x.
Proof.
  destruct x as [s|s| |s m e]; simpl; intros Hv;
    try (rewrite xorb_false_r; reflexivity); try reflexivity.
  rewrite xorb_false_r, Pos.mul_comm.
  unfold bounded, canonical_mantissa in Hv.
  apply andb_true_iff in Hv. destruct Hv as [Hc Hb].
  apply Z.eqb_eq in Hc.
  unfold binary_round_aux. rewrite (shr_fexp_scaled m e Hc).
  cbv [shr_m shr_r shr_s loc_of_shr_record round_nearest_even].
  rewrite (shr_fexp_canonical m e Hc). cbv [shr_m].
  rewrite Hb. reflexivity.
Qed.

(** Multiplying a double by 1.0 returns it. *)
Lemma mul_one (x : float) : (x * 1)%float = x.
Proof.
  apply Prim2SF_inj. rewrite mul_spec.
  change (Prim2SF 1) with (S754_finite false 4503599627370496 (-52)).
  apply SFmul_one, Prim2SF_valid.
Qed.

Lemma product_from_ones (l : list stock.t) : forall tmp,
  the_index.product_from l tmp =
  fold_left (fun acc x => (acc * x)%float) (map one_for_zero (map stock.price l)) tmp.
Proof.
  induction l as [|st l IH]; intros tmp; simpl; [reflexivity|].
  rewrite IH. unfold stock.get_price, one_for_zero.
  destruct (double_to_bool (stock.price st)); [reflexivity|].
  rewrite mul_one. reflexivity.
Qed.

(** X8. Skipping the zero prices in [get_index] gives the same result as
    changing zeros to ones before each multiplication, as the comment in
    the code says: the index is the root, over the number of entries, of the
    product of all the prices with every zero replaced by 1. *)
Theorem get_index_zeros_as_ones :
  forall (pow : float -> float -> float) (w : world),
    the_index.get_index pow w =
    pow (fold_left (fun acc x => (acc * x)%float)
           (map one_for_zero (map stock.price (gbce w))) 1%float)
        (1 / double_of_int (Z.of_nat (List.length (gbce w))))%float.
Proof.
  intros pow w. unfold the_index.get_index. cbv zeta.
  rewrite product_from_ones. reflexivity.
Qed.

(** ** Cutting a line into fields *)

Lemma append_char_nonempty (cur : string) (c : ascii) :
  (cur ++ String c EmptyString)%string <> EmptyString.
Proof. destruct cur; discriminate. Qed.

Lemma split_from_nonempty (s : string) : forall cur : string,
  s <> EmptyString \/ cur <> EmptyString -> split_from s cur <> [].
Proof.
  induction s as [|c s IH]; intros cur H; simpl.
  - destruct cur; [destruct H; contradiction | discriminate].
  - destruct (Ascii.eqb c " "); [discriminate|].
    apply IH. right. apply append_char_nonempty.
Qed.

Lemma split_from_nil_iff (s : string) :
  split_from s EmptyString = [] <-> s = EmptyString.
Proof.
  split.
  - intros H. destruct s as [|c s]; [reflexivity|].
    exfalso. apply (split_from_nonempty (String c s) EmptyString); [|exact H].
    left. discriminate.
  - intros ->. reflexivity.
Qed.

Lemma concat_cons (sep x : string) (l : list string) :
  String.concat sep (x :: l) =
  match l with
  | [] => x
  | _ :: _ => (x ++ sep ++ String.concat sep l)%string
  end.
Proof. destruct l; reflexivity. Qed.

Lemma append_cons_assoc (s t : string) (c : ascii) :
  (s ++ String c t)%string = ((s ++ String c EmptyString) ++ t)%string.
Proof. symmetry. apply append_snoc. Qed.

Lemma chop_space_cons (c : ascii) (rest : string) :
  Ascii.eqb c " " = false ->
  chop_space (String c rest) = String c (chop_space rest).
Proof. intros Hc. simpl. rewrite Hc. destruct rest; reflexivity. Qed.

Lemma concat_split_from (s : string) : forall cur : string,
  String.concat " " (split_from s cur) = (cur ++ chop_space s)%string.
Proof.
  induction s as [|c s IH]; intros cur.
  - simpl. rewrite append_empty_r. destruct cur; reflexivity.
  - cbn [split_from]. destruct (Ascii.eqb c " ") eqn:Hc.
    + apply Ascii.eqb_eq in Hc. subst c.
      rewrite concat_cons.
      destruct (split_from s EmptyString) as [|f fs] eqn:Hs.
      * apply split_from_nil_iff in Hs. subst s. simpl.
        rewrite append_empty_r. reflexivity.
      * rewrite <- Hs, IH.
        destruct s as [|d s]; [discriminate Hs|]. reflexivity.
    + rewrite IH, (chop_space_cons c s Hc). symmetry. apply append_cons_assoc.
Qed.

Lemma no_space_snoc (cur : string) (c : ascii) :
  no_space cur = true -> Ascii.eqb c " " = false ->
  no_space (cur ++ String c EmptyString) = true.
Proof.
  intros Hcur Hc. induction cur as [|d cur IH]; simpl in *.
  - rewrite Hc. reflexivity.
  - apply andb_true_iff in Hcur. destruct Hcur as [Hd Hrest].
    rewrite Hd, (IH Hrest). reflexivity.
Qed.

Lemma split_from_no_space (s : string) : forall cur : string,
  no_space cur = true -> Forall (fun f => no_space f = true) (split_from s cur).
Proof.
  induction s as [|c s IH]; intros cur Hcur; simpl.
  - destruct cur; constructor; auto.
  - destruct (Ascii.eqb c " ") eqn:Hc.
    + constructor; [exact Hcur | apply IH; reflexivity].
    + apply IH, no_space_snoc; assumption.
Qed.

Lemma split_from_single (s : string) : forall cur : string,
  no_space s = true ->
  split_from s cur =
  if the_index.empty (cur ++ s) then [] else [(cur ++ s)%string].
Proof.
  induction s as [|c s IH]; intros cur Hs; simpl.
  - rewrite append_empty_r. reflexivity.
  - simpl in Hs. apply andb_true_iff in Hs. destruct Hs as [Hc Hs].
    apply negb_true_iff in Hc. rewrite Hc, (IH _ Hs), append_snoc. reflexivity.
Qed.

(** X9. Cutting a line into fields loses nothing but one final space: no
    field contains a space, and the fields joined by single spaces give the
    line back, without its last character when that is a space. In
    particular an empty line has no field, and a line with no space is its
    own single field. *)
Theorem split_join :
  forall line : string,
    Forall (fun f => no_space f = true) (split line) /\
    String.concat " " (split line) = chop_space line /\
    (split line = [] <-> line = EmptyString) /\
    (no_space line = true -> line <> EmptyString -> split line = [line]).
Proof.
  intros line. unfold split. split; [|split; [|split]].
  - apply split_from_no_space. reflexivity.
  - apply concat_split_from.
  - apply split_from_nil_iff.
  - intros Hs Hne. rewrite (split_from_single line EmptyString Hs). simpl.
    destruct line; [contradiction | reflexivity].
Qed.

Lemma split_join_witness :
  split "quit" = ["quit"] /\
  String.concat " " (split "buy 5  ALE 3.00 ") = "buy 5  ALE 3.00".
Proof.
  split.
  - apply (proj2 (proj2 (proj2 (split_join "quit")))); [reflexivity | discriminate].
  - apply (proj1 (proj2 (split_join "buy 5  ALE 3.00 "))).
Defined.

(** ** What the commands change and what they print *)

Section DispatcherEffects.

Variable pow : float -> float -> float.
Variable atoi : string -> Z.
Variable atof : string -> float.

Lemma process_command_index_cases (e : env) (line : string) (w : world) :
  let w' := snd (fst (process_command pow atoi atof e line w)) in
  gbce w' = gbce w \/
  (nth 0 (split line) EmptyString = "price" /\ w' = fst (the_index.price (now e) w)).
Proof.
  unfold process_command. cbv zeta.
  destruct (0 <? List.length (split line))%nat; [|left; reflexivity].
  destruct (String.eqb _ "quit"); [left; reflexivity|].
  destruct (String.eqb _ "help"); [left; reflexivity|].
  destruct (String.eqb _ "index"); [left; reflexivity|].
  destruct (String.eqb _ "trade").
  { left. destruct (random_trades_appends e w) as (r1 & r2 & r3 & r4 & r5 & ->).
    reflexivity. }
  destruct (String.eqb _ "buy" || String.eqb _ "sell").
  { destruct (3 <? List.length (split line))%nat; [|left; reflexivity].
    destruct (negb _); [left; reflexivity|].
    match goal with
    | |- context [the_index.trade ?a ?b ?c ?d ?f ?g] =>
        destruct (trade_state a b c d f g) as [Ht|Ht];
        destruct (the_index.trade a b c d f g) as [[|] w']; simpl in Ht; subst w'
    end; left; reflexivity. }
  destruct (String.eqb _ "list"); [left; reflexivity|].
  destruct (String.eqb_spec (nth 0 (split line) EmptyString) "price") as [Hp|Hp].
  { right. split; [exact Hp|].
    destruct (the_index.price (now e) w) as [w' outs]. reflexivity. }
  destruct (String.eqb _ "yield"); [left; reflexivity|].
  destruct (String.eqb _ "pe"); left; reflexivity.
Qed.

(** X10. Of all the commands only "price" can change the index, and it
    changes prices only; only "trade", "buy" and "sell" can change the trade
    log. Every other line ("help", "index", "list", "yield", "pe", "quit",
    an unknown command, an empty line) leaves the whole state as it was. *)
Theorem commands_change_little :
  forall (e : env) (line : string) (w : world),
    let cmd0 := nth 0 (split line) EmptyString in
    let w' := snd (fst (process_command pow atoi atof e line w)) in
    map fixed_fields (gbce w') = map fixed_fields (gbce w) /\
    (cmd0 <> "price" -> gbce w' = gbce w) /\
    (cmd0 <> "trade" -> cmd0 <> "buy" -> cmd0 <> "sell" -> trade_db w' = trade_db w) /\
    (cmd0 <> "price" -> cmd0 <> "trade" -> cmd0 <> "buy" -> cmd0 <> "sell" -> w' = w).
Proof.
  intros e line w cmd0 w'.
  assert (Hindex : cmd0 <> "price" -> gbce w' = gbce w).
  { intros Hp. destruct (process_command_index_cases e line w) as [H | [H _]];
      [exact H | contradiction]. }
  assert (Hlog : cmd0 <> "trade" -> cmd0 <> "buy" -> cmd0 <> "sell" ->
                 trade_db w' = trade_db w).
  { intros Ht Hb Hs. subst w' cmd0. unfold process_command. cbv zeta.
    destruct (0 <? List.length (split line))%nat; [|reflexivity].
    apply String.eqb_neq in Ht, Hb, Hs. rewrite Ht, Hb, Hs. cbn [orb].
    repeat match goal with
           | |- context [if ?b then _ else _] => destruct b
           end; try reflexivity.
    pose proof (price_state (now e) w) as Hp.
    destruct (the_index.price (now e) w) as [w' outs]. simpl in Hp. subst w'.
    reflexivity. }
  split; [|split; [exact Hindex | split; [exact Hlog|]]].
  - destruct (process_command_index_cases e line w) as [H | [_ H]].
    + fold w' in H. rewrite H. reflexivity.
    + fold w' in H. rewrite H, price_state.
      cbn [gbce]. rewrite map_map. apply map_ext. intros s.
      apply set_price_fixed_fields.
  - intros Hp Ht Hb Hs.
    specialize (Hindex Hp). specialize (Hlog Ht Hb Hs).
    destruct w' as [db' l'], w as [db l]. simpl in *. subst. reflexivity.
Qed.

(** X11. The count a command reports in its "Done." line is the length of
    the trade log after the command, and it is the length before plus one
    (an accepted buy or sell) or plus five ("trade"); no other command
    prints such a line. *)
Theorem done_reports_log_length :
  forall (e : env) (line : string) (w : world) (n : nat),
    let r := process_command pow atoi atof e line w in
    In (out_done n) (snd r) ->
    n = List.length (trade_db (snd (fst r))) /\
    ((n = List.length (trade_db w) + 1)%nat /\
       (nth 0 (split line) EmptyString = "buy" \/
        nth 0 (split line) EmptyString = "sell")
     \/ (n = List.length (trade_db w) + 5)%nat /\
        nth 0 (split line) EmptyString = "trade").
Proof.
  intros e line w n r. subst r. unfold process_command. cbv zeta.
  destruct (0 <? List.length (split line))%nat; [|intros []].
  destruct (String.eqb _ "quit"); [intros []|].
  destruct (String.eqb _ "help"); [intros [H|[]]; discriminate|].
  destruct (String.eqb _ "index"); [intros [H|[]]; discriminate|].
  destruct (String.eqb_spec (nth 0 (split line) EmptyString) "trade") as [Ht|Ht].
  { destruct (random_trades_appends e w) as (r1 & r2 & r3 & r4 & r5 & ->).
    cbn [snd fst trade_db]. intros [H|[]]. injection H as <-.
    split; [reflexivity|]. right. split; [|exact Ht].
    rewrite length_app. reflexivity. }
  destruct (String.eqb _ "buy" || String.eqb _ "sell") eqn:Hbs.
  { apply orb_true_iff in Hbs. rewrite !String.eqb_eq in Hbs.
    destruct (3 <? List.length (split line))%nat; [|intros [H|[]]; discriminate].
    destruct (negb _); [intros [H|[]]; discriminate|].
    match goal with
    | |- context [the_index.trade ?a ?b ?c ?d ?f ?g] =>
        destruct (the_index.trade a b c d f g) as [[|] w'] eqn:Htr
    end; cbn [snd fst]; intros [H|[]]; [|discriminate].
    injection H as <-. split; [reflexivity|]. left. split; [|exact Hbs].
    apply trade_accepted in Htr. destruct Htr as (-> & _).
    cbn [trade_db]. rewrite length_app. reflexivity. }
  destruct (String.eqb _ "list"); [intros [H|[]]; discriminate|].
  destruct (String.eqb _ "price").
  { pose proof (price_outputs (now e) w) as Hp.
    destruct (the_index.price (now e) w) as [w' outs]. cbn [snd fst] in *.
    rewrite Hp. intros Hin.
    apply in_map_iff in Hin. destruct Hin as (a & Ha & _). discriminate Ha. }
  destruct (String.eqb _ "yield").
  { cbn [snd]. unfold the_index.dividend_yield. intros Hin.
    apply in_map_iff in Hin. destruct Hin as (a & Ha & _). discriminate Ha. }
  destruct (String.eqb _ "pe").
  { cbn [snd]. unfold the_index.pe_ratio. intros Hin.
    apply in_map_iff in Hin. destruct Hin as (a & Ha & _). discriminate Ha. }
  intros [H|[]]; discriminate.
Qed.

End DispatcherEffects.

Lemma commands_change_little_witness :
  let e := {| now := 9; rand := fun _ => 0 |} in
  snd (fst (process_command Libc.pow Libc.atoi Libc.atof e "yield"
              after_buy_at_zero_price)) = after_buy_at_zero_price.
Proof.
  intros e.
  apply (proj2 (proj2 (proj2 (commands_change_little Libc.pow Libc.atoi Libc.atof
                                e "yield" after_buy_at_zero_price))));
    discriminate.
Defined.

Lemma done_reports_log_length_witness :
  let e := {| now := 9; rand := fun _ => 0 |} in
  let w := snd (the_index.trade 0 "TEA" BUY_STOCK 5 0%float the_index.startup) in
  2%nat = List.length (trade_db (snd (fst
            (process_command Libc.pow Libc.atoi Libc.atof e "sell 3 GIN 1.25" w)))).
Proof.
  intros e w.
  refine (proj1 (done_reports_log_length Libc.pow Libc.atoi Libc.atof e
                   "sell 3 GIN 1.25" w 2%nat _)).
  left. reflexivity.
Defined.

(** ** The loop of [main] *)

Section MainLoop.

Variable pow : float -> float -> float.
Variable atoi : string -> Z.
Variable atof : string -> float.

Lemma process_command_continues (e : env) (line : string) (w : world) :
  fst (fst (process_command pow atoi atof e line w)) =
  negb (String.eqb (Spec.first_field line) "quit").
Proof.
  rewrite process_command_result. unfold split.
  rewrite split_from_first_field. reflexivity.
Qed.

Lemma process_command_quit (e : env) (line : string) (w : world) :
  Spec.first_field line = "quit" ->
  process_command pow atoi atof e line w = (false, w, []).
Proof.
  intros Hq.
  pose proof (split_from_first_field line EmptyString) as H.
  simpl append in H. rewrite Hq in H. simpl String.eqb in H.
  apply andb_true_iff in H. destruct H as [Hlen H0].
  unfold process_command. cbv zeta. unfold split. rewrite Hlen, H0. reflexivity.
Qed.

Lemma main_loop_app (before after : list (env * string)) : forall w : world,
  Forall (fun i => Spec.first_field (snd i) <> "quit") before ->
  main_loop pow atoi atof (before ++ after) w =
  main_loop pow atoi atof after (main_loop pow atoi atof before w).
Proof.
  induction before as [|[e line] rest IH]; intros w Hb; simpl; [reflexivity|].
  inversion Hb as [|? ? Hline Hrest]; subst. simpl in Hline.
  pose proof (process_command_continues e line w) as Hc.
  apply String.eqb_neq in Hline. rewrite Hline in Hc. simpl in Hc.
  destruct (process_command pow atoi atof e line w) as [[continue w'] outs].
  simpl in Hc. subst continue. apply IH. exact Hrest.
Qed.

(** X12. The loop of [main] runs the lines in order, each on the state the
    previous one left, as long as no line has "quit" before its first space;
    at the first such line it stops with the state unchanged by that line,
    and nothing that follows is read. *)
Theorem main_loop_stops_at_quit :
  forall (before after : list (env * string)) (e : env) (line : string) (w : world),
    Forall (fun i => Spec.first_field (snd i) <> "quit") before ->
    Spec.first_field line = "quit" ->
    main_loop pow atoi atof (before ++ after) w =
      main_loop pow atoi atof after (main_loop pow atoi atof before w) /\
    main_loop pow atoi atof (before ++ (e, line) :: after) w =
      main_loop pow atoi atof before w.
Proof.
  intros before after e line w Hb Hq. split.
  - apply main_loop_app. exact Hb.
  - rewrite (main_loop_app before ((e, line) :: after) w Hb). simpl.
    rewrite (process_command_quit e line _ Hq). reflexivity.
Qed.

End MainLoop.

Lemma main_loop_stops_at_quit_witness :
  let e := {| now := 0; rand := fun _ => 0 |} in
  main_loop Libc.pow Libc.atoi Libc.atof
    ([(e, "buy 5 TEA 0"); (e, "price")] ++ (e, "quit now") :: [(e, "trade")])
    the_index.startup =
  main_loop Libc.pow Libc.atoi Libc.atof [(e, "buy 5 TEA 0"); (e, "price")]
    the_index.startup.
Proof.
  intros e.
  refine (proj2 (main_loop_stops_at_quit Libc.pow Libc.atoi Libc.atof
                   [(e, "buy 5 TEA 0"); (e, "price")] [(e, "trade")]
                   e "quit now" the_index.startup _ _)).
  - repeat constructor; discriminate.
  - reflexivity.
Defined.

(** ** A recorded trade is read back *)

(** X13. A trade that [trade] has accepted is found by the next price
    recalculation of its symbol whenever its age is within the window: the
    record is among the matching records of the new log, so [set_price] on
    an entry with that symbol takes the volume-weighted average of the
    matching records instead of keeping the old price. *)
Theorem accepted_trade_is_read_back :
  forall (now : time_t) (symbol : string) (op num : Z) (pr : float) (w w' : world)
         (later interval : time_t) (s : stock.t),
    the_index.trade now symbol op num pr w = (true, w') ->
    later - now <= interval ->
    stock.symbol s = symbol ->
    let m := Spec.trades_for symbol interval later (trade_db w') in
    In (trade_op.new now symbol op num pr) m /\
    stock.set_price later interval (trade_db w') s =
      (Spec.volume_weighted_average m,
       stock.with_price s (Spec.volume_weighted_average m)).
Proof.
  intros now symbol op num pr w w' later interval s Ht Hage Hs m.
  apply trade_accepted in Ht. destruct Ht as (-> & _).
  assert (Hin : In (trade_op.new now symbol op num pr) m).
  { subst m. unfold Spec.trades_for. apply filter_In. split.
    - cbn [trade_db]. apply in_or_app. right. left. reflexivity.
    - simpl. rewrite String.eqb_refl. simpl. apply Z.leb_le. exact Hage. }
  split; [exact Hin|].
  subst m. rewrite <- Hs in *. apply set_price_matching.
  intros Hnil. rewrite Hnil in Hin. contradiction.
Qed.

Lemma accepted_trade_is_read_back_witness :
  let w' := snd (the_index.trade 100 "ALE" BUY_STOCK 10 5.0 the_index.startup) in
  let ale := stock.new "ALE" COMMON_STOCK 0.23 0 0.60 in
  In (trade_op.new 100 "ALE" BUY_STOCK 10 5.0)
     (Spec.trades_for "ALE" FIFTEEN_MINS 1000 (trade_db w')).
Proof.
  intros w' ale.
  refine (proj1 (accepted_trade_is_read_back 100 "ALE" BUY_STOCK 10 5.0
                   the_index.startup w' 1000 FIFTEEN_MINS ale _ _ _)).
  - reflexivity.
  - vm_compute. discriminate.
  - reflexivity.
Defined.

(** ** The dividend yield at a zero price *)

Lemma is_zero_spec (x : float) :
  PrimFloat.is_zero x = true -> exists s, Prim2SF x = S754_zero s.
Proof.
  unfold PrimFloat.is_zero. rewrite eqb_spec.
  change (Prim2SF zero) with (S754_zero false).
  destruct (Prim2SF x) as [s|s| |s m e]; unfold SFeqb; simpl;
    try discriminate; try (destruct s; discriminate).
  intros _. exists s. reflexivity.
Qed.

Lemma div_by_zero_not_finite (x y : float) :
  PrimFloat.is_zero y = true -> PrimFloat.is_finite (x / y) = false.
Proof.
  intros Hy. destruct (is_zero_spec y Hy) as [sy Hsy].
  unfold PrimFloat.is_finite, PrimFloat.is_nan, PrimFloat.is_infinity.
  rewrite !eqb_spec, abs_spec, div_spec, Hsy.
  change (Prim2SF infinity) with (S754_infinity false).
  destruct sy, (Prim2SF x) as [[|]|[|]| |[|] m e]; reflexivity.
Qed.

(** X14. [get_dividend_yield] divides by the price without a guard: for an
    entry of either class whose price is zero it returns a value that is
    not finite (NaN or an infinity). Such an entry exists in a reachable
    state, the one after "buy 5 TEA 0" and "price". *)
Theorem dividend_yield_at_zero_price :
  (forall s : stock.t,
     stock.type s = COMMON_STOCK \/ stock.type s = PREF_STOCK ->
     PrimFloat.is_zero (stock.price s) = true ->
     PrimFloat.is_finite (stock.get_dividend_yield s) = false) /\
  (exists (w : world) (s : stock.t),
     reachable w /\ In s (gbce w) /\
     (stock.type s = COMMON_STOCK \/ stock.type s = PREF_STOCK) /\
     PrimFloat.is_zero (stock.price s) = true).
Proof.
  split.
  - intros s Hty Hz. unfold stock.get_dividend_yield.
    destruct Hty as [-> | ->]; simpl; apply div_by_zero_not_finite; exact Hz.
  - exists after_buy_at_zero_price, (stock.mk "TEA" COMMON_STOCK 0.00 0 1.00 0).
    split; [apply reachable_after_buy_at_zero_price|].
    split; [left; vm_compute; reflexivity|].
    split; [left; reflexivity | reflexivity].
Qed.

Lemma dividend_yield_at_zero_price_witness :
  PrimFloat.is_finite
    (stock.get_dividend_yield (stock.mk "POP" COMMON_STOCK 0.08 0 1.00 0)) = false.
Proof.
  apply (proj1 dividend_yield_at_zero_price).
  - left. reflexivity.
  - reflexivity.
Defined.

(** ** The five random trades of the "trade" command *)

(** X15. With non-negative results of [rand()], the "trade" command leaves
    the index alone and appends five records, one for each symbol of the
    sample table in the order of the table, each stamped with the current
    time, with a quantity from 1 to 109 and a price from 0.41 to 3.39. *)
Theorem random_trades_records :
  forall (e : env) (w : world),
    (forall n, 0 <= rand e n) ->
    exists added : list trade_op.t,
      random_trades e w =
        {| trade_db := (trade_db w ++ added)%list; gbce := gbce w |} /\
      map trade_op.symbol added = sample_symbols /\
      Forall (fun r =>
                trade_op.stamp r = now e /\
                1 <= trade_op.quantity r <= 109 /\
                (0.41 <=? trade_op.price r)%float = true /\
                (trade_op.price r <=? 3.39)%float = true) added.
Proof.
  intros e w Hrand.
  unfold random_trades, the_index.random_trade. cbn [trade_db gbce].
  eexists. split.
  - repeat rewrite <- app_assoc. cbn [app]. reflexivity.
  - split; [reflexivity|].
    repeat constructor; cbn [trade_op.quantity trade_op.price trade_op.new];
      try (match goal with
           | |- 1 <= 1 + Z.rem ?r 109 =>
               assert (0 <= Z.rem r 109 < 109)
                 by (apply Z.rem_bound_pos; [apply Hrand | lia]); lia
           | |- 1 + Z.rem ?r 109 <= 109 =>
               assert (0 <= Z.rem r 109 < 109)
                 by (apply Z.rem_bound_pos; [apply Hrand | lia]); lia
           | |- (0.41 <=? _)%float = true =>
               apply (proj1 (random_price_bounds _ (Hrand _)))
           | |- (_ <=? 3.39)%float = true =>
               apply (proj2 (random_price_bounds _ (Hrand _)))
           end).
Qed.

Lemma random_trades_records_witness :
  let e := {| now := 7; rand := fun n => Z.of_nat n * 1000 |} in
  exists added : list trade_op.t,
    random_trades e the_index.startup =
      {| trade_db := ([] ++ added)%list; gbce := the_index.sample |} /\
    map trade_op.symbol added = sample_symbols /\
    Forall (fun r =>
              trade_op.stamp r = 7 /\
              1 <= trade_op.quantity r <= 109 /\
              (0.41 <=? trade_op.price r)%float = true /\
              (trade_op.price r <=? 3.39)%float = true) added.
Proof.
  intros e. apply (random_trades_records e the_index.startup).
  intros n. simpl. lia.
Defined.

(** ** Error reports of the dispatcher *)

Section ErrorReports.

Variable pow : float -> float -> float.
Variable atoi : string -> Z.
Variable atof : string -> float.

Lemma buy_sell_branch (e : env) (line : string) (w : world) :
  nth 0 (split line) EmptyString = "buy" \/ nth 0 (split line) EmptyString = "sell" ->
  process_command pow atoi atof e line w =
  let cmd := split line in
  let cmd0 := nth 0 cmd EmptyString in
  let cmd1 := nth 1 cmd EmptyString in
  let cmd2 := nth 2 cmd EmptyString in
  let cmd3 := nth 3 cmd EmptyString in
  if (3 <? List.length cmd)%nat then
    if negb (the_index.exist cmd2 w) then (true, w, [out_error_unknown_symbol cmd2])
    else
      let '(ok, w') :=
        the_index.trade (now e) cmd2
          (if String.eqb cmd0 "sell" then SELL_STOCK else BUY_STOCK)
          (atoi cmd1) (atof cmd3) w in
      if ok then (true, w', [out_done (List.length (trade_db w'))])
      else (true, w', [out_error_cannot cmd0 cmd2 cmd1])
  else (true, w, [out_error_syntax cmd0]).
Proof.
  intros H0. unfold process_command. cbv zeta.
  destruct (split line) as [|c0 rest] eqn:Hs;
    [destruct H0 as [H0|H0]; discriminate|].
  cbn [nth] in *. change (0 <? List.length (c0 :: rest))%nat with true. cbv iota.
  destruct H0 as [-> | ->]; reflexivity.
Qed.

(** X16. A buy or sell always prints exactly one line. With fewer than four
    fields it is the syntax error; with an unknown symbol, the unknown-symbol
    error; with a negative quantity or price, the "cannot" error; in these
    three cases the state is unchanged. Otherwise the record is appended and
    the line is "Done." with the new length of the log. *)
Theorem buy_sell_reports :
  forall (e : env) (line : string) (w : world),
    let cmd := split line in
    let cmd0 := nth 0 cmd EmptyString in
    let cmd1 := nth 1 cmd EmptyString in
    let cmd2 := nth 2 cmd EmptyString in
    let cmd3 := nth 3 cmd EmptyString in
    let r := process_command pow atoi atof e line w in
    cmd0 = "buy" \/ cmd0 = "sell" ->
    ((List.length cmd <= 3)%nat -> r = (true, w, [out_error_syntax cmd0])) /\
    ((3 < List.length cmd)%nat -> the_index.exist cmd2 w = false ->
       r = (true, w, [out_error_unknown_symbol cmd2])) /\
    ((3 < List.length cmd)%nat -> the_index.exist cmd2 w = true ->
       cmd2 = EmptyString \/ atoi cmd1 < 0 \/ (atof cmd3 <? 0)%float = true ->
       r = (true, w, [out_error_cannot cmd0 cmd2 cmd1])) /\
    ((3 < List.length cmd)%nat -> the_index.exist cmd2 w = true ->
       cmd2 <> EmptyString -> 0 <= atoi cmd1 -> (atof cmd3 <? 0)%float = false ->
       r = (true,
            {| trade_db :=
                 (trade_db w ++
                  [trade_op.new (now e) cmd2
                     (if String.eqb cmd0 "sell" then SELL_STOCK else BUY_STOCK)
                     (atoi cmd1) (atof cmd3)])%list;
               gbce := gbce w |},
            [out_done (List.length (trade_db w) + 1)])).
Proof.
  intros e line w cmd cmd0 cmd1 cmd2 cmd3 r H0. subst r.
  rewrite (buy_sell_branch e line w H0). cbv zeta.
  fold cmd. fold cmd0 cmd1 cmd2 cmd3.
  split; [|split; [|split]].
  - intros Hlen. apply Nat.ltb_ge in Hlen. rewrite Hlen. reflexivity.
  - intros Hlen Hex. apply Nat.ltb_lt in Hlen. rewrite Hlen, Hex. reflexivity.
  - intros Hlen Hex Hbad. apply Nat.ltb_lt in Hlen. rewrite Hlen, Hex. cbn [negb].
    match goal with
    | |- context [the_index.trade ?a ?b ?c ?d ?f ?g] =>
        assert (Hrej : fst (the_index.trade a b c d f g) = false)
          by (apply trade_rejects; exact Hbad);
        destruct (the_index.trade a b c d f g) as [ok w'] eqn:Ht
    end.
    simpl in Hrej. subst ok. apply trade_rejected in Ht. subst w'. reflexivity.
  - intros Hlen Hex Hne Hq Hp. apply Nat.ltb_lt in Hlen. rewrite Hlen, Hex. cbn [negb].
    unfold the_index.trade. rewrite Hp.
    destruct cmd2 as [|c s]; [contradiction|].
    destruct (Z.ltb_spec (atoi cmd1) 0); [lia|].
    cbn [the_index.empty orb trade_db]. rewrite length_app. reflexivity.
Qed.

End ErrorReports.

Lemma buy_sell_reports_witness :
  let e := {| now := 7; rand := fun _ => 0 |} in
  let run := fun line =>
    process_command Libc.pow Libc.atoi Libc.atof e line the_index.startup in
  run "buy 5" = (true, the_index.startup, [out_error_syntax "buy"]) /\
  run "buy 5 ZZZ 3.00" = (true, the_index.startup, [out_error_unknown_symbol "ZZZ"]) /\
  run "sell -5 ALE 3.00" = (true, the_index.startup, [out_error_cannot "sell" "ALE" "-5"]).
Proof.
  intros e run.
  pose proof (fun line => buy_sell_reports Libc.pow Libc.atoi Libc.atof e line
                            the_index.startup) as H.
  split; [|split].
  - apply (proj1 (H "buy 5" (or_introl eq_refl))). vm_compute. lia.
  - apply (proj1 (proj2 (H "buy 5 ZZZ 3.00" (or_introl eq_refl)))).
    + vm_compute. lia.
    + reflexivity.
  - apply (proj1 (proj2 (proj2 (H "sell -5 ALE 3.00" (or_intror eq_refl))))).
    + vm_compute. lia.
    + reflexivity.
    + right. left. vm_compute. reflexivity.
Defined.
